(** * lingvo/core/tpu_embedding_layers_v2.py

    A shallow embedding of the [_TPUEmbeddingManager] singleton and of the
    part of [TPUEmbeddingLayer] that drives it, with the properties the
    specification states about them.

    The TensorFlow objects the file wraps (tensors, the TPUEmbedding
    coordinator, schedules, the gradient tape) are external: they are the
    fields of the [Backend] class below.  Every call that leaves the file is
    recorded in a call history, and what an external call answers is a
    function of the history so far.  An external call is taken to return:
    what the wrapped library raises is not this file's. *)

From Stdlib Require Import QArith.
From stdpp Require Import gmap strings list fin_maps pretty.

Local Open Scope string_scope.
Local Open Scope list_scope.
Local Open Scope nat_scope.
Local Open Scope stdpp_scope.

(** ** Python exceptions *)

Inductive Message :=
  | AlreadySet
      (* 'TPUEmbedding has already been set.' *)
  | KeyUsedByMultipleTables (feature_names : gmap string nat)
      (* f'Key used by multiple tables ({feature_names=})' *)
  | InvalidInputKeys (invalid_keys valid_keys : gset string).
      (* f'Invalid input keys: {invalid_keys}. (Valid keys: {valid_keys})' *)

Inductive PyError :=
  | ValueError (msg : Message)
  | AttributeError                (* a method looked up on None *)
  | KeyError (key : string).

Inductive Res (A : Type) :=
  | Ok (a : A)
  | Raise (e : PyError).
Arguments Ok {A} a.
Arguments Raise {A} e.

#[global] Instance Res_ret : MRet Res := λ A a, Ok a.
#[global] Instance Res_bind : MBind Res := λ A B f x,
  match x with Ok a => f a | Raise e => Raise e end.

(** ** py_utils.NestedMap *)

(** Modelled from the spec: [py_utils.NestedMap] (lingvo/core/py_utils.py is
    not among the sources).  The spec describes it as a mapping from feature
    name to tensor; keys are the flattened key paths that [Keys] lists. *)
Abbreviation NestedMap A := (gmap string A).

Module NestedMap.

Definition Keys {A} (m : NestedMap A) : gset string := dom m.

(** [m.GetItem(k)]: a missing key is a [KeyError]. *)
Definition GetItem {A} (m : NestedMap A) (k : string) : Res A :=
  match m !! k with
  | Some v => Ok v
  | None => Raise (KeyError k)
  end.

Definition Set_ {A} (m : NestedMap A) (k : string) (v : A) : NestedMap A :=
  <[k := v]> m.

(** [m.GetSlice(keys)]: a new map holding [m]'s items at [keys]. *)
Definition GetSlice {A} (m : NestedMap A) (keys : gset string)
  : Res (NestedMap A) :=
  foldr (λ k acc, ret ← acc; v ← GetItem m k; Ok (Set_ ret k v))
        (Ok ∅) (elements keys).

Definition Transform {A B} (f : A → B) (m : NestedMap A) : NestedMap B :=
  f <$> m.

Definition Flatten {A} (m : NestedMap A) : list A :=
  (map_to_list m).*2.

(** [m.Update(other)]: the items of [other] win. *)
Definition Update {A} (m other : NestedMap A) : NestedMap A := other ∪ m.

(** Truth value of an optional map argument: [None] and the empty map
    are false. *)
Definition truthy {A} (ids : option (NestedMap A)) : bool :=
  match ids with
  | Some m => negb (bool_decide (m = ∅))
  | None => false
  end.

End NestedMap.

(** ** The external interface *)

Record FeatureConfig (TableConfig : Type) := {
  fc_table : TableConfig;
  fc_output_shape : option (list Z);
}.
Arguments fc_table {_} _.
Arguments fc_output_shape {_} _.

Class Backend := {
  Tensor : Type;            (* tf.Tensor holding activations or gradients *)
  Ids : Type;               (* tf.Tensor holding ids *)
  Coordinator : Type;       (* tpu_embedding_v2.TPUEmbedding *)
  Schedule : Type;          (* schedule_lib.BaseSchedule *)
  TableConfig : Type;       (* tpu_embedding_v2_utils.TableConfig *)
  Optimizer : Type;         (* tpu_embedding_v2_utils._Optimizer *)
  tf_mul : Tensor → Tensor → Tensor;
  tf_sqrt : Tensor → Tensor;
  tf_constant : Q → Tensor;
  tf_convert_to_tensor : Q → Tensor;
  SumSquared : list Tensor → Tensor;      (* py_utils.SumSquared *)
  (* the TensorFlow lookups behind TPUEmbeddingTable._SequenceEmbLookup and
     the dense-to-sparse _Lookup of CpuEmbLookup; the string is the
     partition strategy *)
  tf_sequence_lookup : TableConfig → Ids → string → Tensor;
  tf_combiner_lookup : TableConfig → Ids → string → Tensor;
}.

Section Calls.
Context `{B : Backend}.

(** A call that leaves this file. *)
Inductive Call :=
  | TPUEmbedding_init
      (feature_config : NestedMap (FeatureConfig TableConfig))
      (optimizer : Optimizer) (pipeline_execution_with_tensor_core : bool)
  | enqueue (c : Coordinator) (batch : NestedMap Ids)
  | dequeue (c : Coordinator)
  | apply_gradients (c : Coordinator) (gradients : NestedMap Tensor)
  | Value (s : Schedule)
  | watch (activations : NestedMap Tensor).

Definition is_init (c : Call) : bool :=
  match c with
  | TPUEmbedding_init _ _ _ => true
  | _ => false
  end.
End Calls.

(** What the external calls answer, given the calls made before. *)
Class Oracle `{B : Backend} := {
  TPUEmbedding_new : list Call → Coordinator;
  dequeue_result : Coordinator → list Call → NestedMap Tensor;
  Value_result : Schedule → list Call → Tensor;
}.

(** ** _TPUEmbeddingManager *)

Section Manager.
Context `{O : Oracle}.

Record _TPUEmbeddingManager := {
  enabled : bool;
  _tpu_embedding : option Coordinator;
  _feature_names : gset string;
  _gradient_multiplier_schedule : option Schedule;
  _summary_tensors : list (string * Tensor * Tensor);
  _sequence_features : gset string;
  _activations : NestedMap Tensor;
}.

(** [__init__] (lines 262-275) *)
Definition __init__ : _TPUEmbeddingManager := {|
  enabled := false;
  _tpu_embedding := None;
  _feature_names := ∅;
  _gradient_multiplier_schedule := None;
  _summary_tensors := [];
  _sequence_features := ∅;
  _activations := ∅;
|}.

(** [__bool__] (lines 277-279) *)
Definition __bool__ (self : _TPUEmbeddingManager) : bool := enabled self.

Definition with_enabled b (m : _TPUEmbeddingManager) :=
  {| enabled := b; _tpu_embedding := _tpu_embedding m;
     _feature_names := _feature_names m;
     _gradient_multiplier_schedule := _gradient_multiplier_schedule m;
     _summary_tensors := _summary_tensors m;
     _sequence_features := _sequence_features m;
     _activations := _activations m |}.
Definition with_tpu_embedding c (m : _TPUEmbeddingManager) :=
  {| enabled := enabled m; _tpu_embedding := c;
     _feature_names := _feature_names m;
     _gradient_multiplier_schedule := _gradient_multiplier_schedule m;
     _summary_tensors := _summary_tensors m;
     _sequence_features := _sequence_features m;
     _activations := _activations m |}.
Definition with_feature_names f (m : _TPUEmbeddingManager) :=
  {| enabled := enabled m; _tpu_embedding := _tpu_embedding m;
     _feature_names := f;
     _gradient_multiplier_schedule := _gradient_multiplier_schedule m;
     _summary_tensors := _summary_tensors m;
     _sequence_features := _sequence_features m;
     _activations := _activations m |}.
Definition with_gradient_multiplier_schedule s (m : _TPUEmbeddingManager) :=
  {| enabled := enabled m; _tpu_embedding := _tpu_embedding m;
     _feature_names := _feature_names m;
     _gradient_multiplier_schedule := s;
     _summary_tensors := _summary_tensors m;
     _sequence_features := _sequence_features m;
     _activations := _activations m |}.
Definition with_summary_tensors l (m : _TPUEmbeddingManager) :=
  {| enabled := enabled m; _tpu_embedding := _tpu_embedding m;
     _feature_names := _feature_names m;
     _gradient_multiplier_schedule := _gradient_multiplier_schedule m;
     _summary_tensors := l;
     _sequence_features := _sequence_features m;
     _activations := _activations m |}.
Definition with_sequence_features f (m : _TPUEmbeddingManager) :=
  {| enabled := enabled m; _tpu_embedding := _tpu_embedding m;
     _feature_names := _feature_names m;
     _gradient_multiplier_schedule := _gradient_multiplier_schedule m;
     _summary_tensors := _summary_tensors m;
     _sequence_features := f;
     _activations := _activations m |}.
Definition with_activations a (m : _TPUEmbeddingManager) :=
  {| enabled := enabled m; _tpu_embedding := _tpu_embedding m;
     _feature_names := _feature_names m;
     _gradient_multiplier_schedule := _gradient_multiplier_schedule m;
     _summary_tensors := _summary_tensors m;
     _sequence_features := _sequence_features m;
     _activations := a |}.

(** *** The process state and its monad

    [manager] is the module-level singleton [TPU_EMBEDDING_MANAGER];
    [calls] is the history of external calls, oldest first.  A raised
    exception keeps the mutations made before it. *)
Record Env := {
  manager : _TPUEmbeddingManager;
  calls : list Call;
}.

Definition M (A : Type) : Type := Env → Res A * Env.

#[global] Instance M_ret : MRet M := λ A a g, (Ok a, g).
#[global] Instance M_bind : MBind M := λ A B f x g,
  match x g with
  | (Ok a, g') => f a g'
  | (Raise e, g') => (Raise e, g')
  end.

Definition raise {A} (e : PyError) : M A := λ g, (Raise e, g).
Definition lift {A} (r : Res A) : M A := λ g, (r, g).
Definition TPU_EMBEDDING_MANAGER : M _TPUEmbeddingManager :=
  λ g, (Ok (manager g), g).
Definition update (f : _TPUEmbeddingManager → _TPUEmbeddingManager)
  : M unit :=
  λ g, (Ok tt, {| manager := f (manager g); calls := calls g |}).
Definition history : M (list Call) := λ g, (Ok (calls g), g).
Definition call (c : Call) : M unit :=
  λ g, (Ok tt, {| manager := manager g; calls := calls g ++ [c] |}).

(** *** Properties *)

(** [tpu_embedding] getter, followed by a method call on what it
    returns: on [None] the attribute lookup raises. *)
Definition tpu_embedding : M Coordinator :=
  self ← TPU_EMBEDDING_MANAGER;
  match _tpu_embedding self with
  | Some c => mret c
  | None => raise AttributeError
  end.

(** [tpu_embedding] setter (lines 286-290).  Its argument is a TPUEmbedding
    object, as annotated: never [None]. *)
Definition set_tpu_embedding (tpu_embedding : Coordinator) : M unit :=
  self ← TPU_EMBEDDING_MANAGER;
  if bool_decide (_tpu_embedding self ≠ None)
  then raise (ValueError AlreadySet)
  else update (with_tpu_embedding (Some tpu_embedding)).

Definition set_feature_names (feature_names : gset string) : M unit :=
  update (with_feature_names feature_names).

Definition set_sequence_features (features : gset string) : M unit :=
  update (with_sequence_features features).

Definition gradient_multiplier_schedule : M Schedule :=
  self ← TPU_EMBEDDING_MANAGER;
  match _gradient_multiplier_schedule self with
  | Some s => mret s
  | None => raise AttributeError
  end.

Definition set_gradient_multiplier_schedule (schedule : Schedule)
  : M unit :=
  update (with_gradient_multiplier_schedule (Some schedule)).

(** *** Methods *)

(** [AddSummaryTensor] (lines 317-318) *)
Definition AddSummaryTensor (name : string) (value : Tensor) (weight : Q)
  : M unit :=
  update (λ self, with_summary_tensors
    (_summary_tensors self ++ [(name, value, tf_convert_to_tensor weight)])
    self).

(** [Enqueue] (lines 325-333) *)
Definition Enqueue (batch : NestedMap Ids) : M unit :=
  update (with_activations ∅);;
  self ← TPU_EMBEDDING_MANAGER;
  if enabled self
  then c ← tpu_embedding; call (enqueue c batch)
  else mret tt.

(** [Dequeue] (lines 335-347) *)
Definition Dequeue : M (NestedMap Tensor) :=
  self ← TPU_EMBEDDING_MANAGER;
  (if enabled self
   then
     c ← tpu_embedding;
     h ← history;
     call (dequeue c);;
     update (with_activations (dequeue_result c h));;
     self ← TPU_EMBEDDING_MANAGER;
     call (watch (_activations self))
   else mret tt);;
  self ← TPU_EMBEDDING_MANAGER;
  mret (_activations self).

(** [Lookup] (lines 349-364); [ids] defaults to [None]. *)
Definition Lookup (ids : option (NestedMap Ids)) : M (NestedMap Tensor) :=
  self ← TPU_EMBEDDING_MANAGER;
  if NestedMap.truthy ids && enabled self
  then
    lift (NestedMap.GetSlice (_activations self)
            (from_option NestedMap.Keys ∅ ids
               ∩ NestedMap.Keys (_activations self)))
  else mret (_activations self).

(** [ApplyGradients] (lines 366-394) *)
Definition ApplyGradients (gradients : NestedMap Tensor)
  : M (gmap string (Tensor * Tensor)) :=
  self ← TPU_EMBEDDING_MANAGER;
  if negb (enabled self) then mret ∅ else
  s ← gradient_multiplier_schedule;
  h ← history;
  call (Value s);;
  let multiplier := Value_result s h in
  let scaled_grads :=
    NestedMap.Transform (λ g, tf_mul g multiplier) gradients in
  c ← tpu_embedding;
  call (apply_gradients c scaled_grads);;
  activations ← Lookup None;
  mret (<["tpu_embedding_activation_norm" :=
           (tf_sqrt (SumSquared (NestedMap.Flatten activations)),
            tf_constant 1)]>
       (<["tpu_embedding_grad_norm" :=
           (tf_sqrt (SumSquared (NestedMap.Flatten scaled_grads)),
            tf_constant 1)]>
       (<["tpu_embedding_gradient_multiplier" :=
           (multiplier, tf_constant 1)]> ∅))).

(** The mapping [ApplyGradients] reports, as the specification words it:
    two norms and the multiplier, each with weight 1.0. *)
Definition metrics (activations scaled_grads : NestedMap Tensor)
    (multiplier : Tensor) : gmap string (Tensor * Tensor) :=
  <["tpu_embedding_activation_norm" :=
      (tf_sqrt (SumSquared (NestedMap.Flatten activations)),
       tf_constant 1)]>
  (<["tpu_embedding_grad_norm" :=
      (tf_sqrt (SumSquared (NestedMap.Flatten scaled_grads)),
       tf_constant 1)]>
  (<["tpu_embedding_gradient_multiplier" :=
      (multiplier, tf_constant 1)]> ∅)).

End Manager.

(** ** TPUEmbeddingTable and TPUEmbeddingLayer *)

Section Layer.
Context `{O : Oracle}.

Record TPUEmbeddingTable := {
  input_keys : list string;
  max_sequence_length : Z;
  table_config : TableConfig;
}.

Definition _SequenceEmbLookup (self : TPUEmbeddingTable)
    (dense_ids : Ids) (partition_strategy : string) : Tensor :=
  tf_sequence_lookup (table_config self) dense_ids partition_strategy.

(** [CpuEmbLookup] (lines 220-256) *)
Definition CpuEmbLookup (self : TPUEmbeddingTable)
    (ids_map : NestedMap Ids) (partition_strategy : string)
  : NestedMap Tensor :=
  if (0 <? max_sequence_length self)%Z
  then NestedMap.Transform
         (λ ids, _SequenceEmbLookup self ids partition_strategy) ids_map
  else NestedMap.Transform
         (λ ids, tf_combiner_lookup (table_config self) ids
                   partition_strategy) ids_map.

Record Params := {
  batch_size : Z;
  learning_rate : Q;
  pipeline_execution_with_tensor_core : bool;
  partition_strategy : string;
  IsTpuTraining : bool;        (* py_utils.IsTpuTraining(p) *)
}.

(** [tpu_embedding_manager] is [None] or the singleton: a flag. *)
Record TPUEmbeddingLayer := {
  params : Params;
  tables : list TPUEmbeddingTable;
  CreateOptimizerFn : Q → Optimizer;        (* self.optimizer *)
  layer_gradient_multiplier_schedule : Schedule;
  tpu_embedding_manager : bool;
}.

Definition with_tpu_embedding_manager b (self : TPUEmbeddingLayer) :=
  {| params := params self; tables := tables self;
     CreateOptimizerFn := CreateOptimizerFn self;
     layer_gradient_multiplier_schedule :=
       layer_gradient_multiplier_schedule self;
     tpu_embedding_manager := b |}.

(** The two nested loops that fill [feature_config] and
    [sequence_features]. *)
Definition declare_feature (p : Params) (table : TPUEmbeddingTable)
    (acc : NestedMap (FeatureConfig TableConfig) * list string)
    (feature : string) :=
  if (0 <? max_sequence_length table)%Z
  then (NestedMap.Set_ acc.1 feature
          {| fc_table := table_config table;
             fc_output_shape :=
               Some [batch_size p; max_sequence_length table] |},
        (acc.2 ++ [feature])%list)
  else (NestedMap.Set_ acc.1 feature
          {| fc_table := table_config table; fc_output_shape := None |},
        acc.2).

Definition declare_features (self : TPUEmbeddingLayer) :=
  foldl (λ acc table,
           foldl (declare_feature (params self) table) acc
                 (input_keys table))
        (∅, []) (tables self).

(** [collections.Counter.update] *)
Definition Counter_update (counter : gmap string nat) (keys : list string)
  : gmap string nat :=
  foldl (λ c k, <[k := S (default 0 (c !! k))]> c) counter keys.

Definition count_feature_names (self : TPUEmbeddingLayer)
  : gmap string nat :=
  foldl (λ c table, Counter_update c (input_keys table)) ∅ (tables self).

Definition any_above_one (counter : gmap string nat) : bool :=
  existsb (λ kv : string * nat, Nat.ltb 1 kv.2) (map_to_list counter).

(** [_CreateLayerVariables] (lines 451-513).  It returns the layer, whose
    [tpu_embedding_manager] attribute it may have set. *)
Definition _CreateLayerVariables (self : TPUEmbeddingLayer)
  : M TPUEmbeddingLayer :=
  let p := params self in
  if negb (IsTpuTraining p) then mret self else
  let '(feature_config, sequence_features) := declare_features self in
  manager ← TPU_EMBEDDING_MANAGER;
  if negb (__bool__ manager)
  then
    update (with_enabled true);;
    let init :=
      TPUEmbedding_init feature_config
        (CreateOptimizerFn self (learning_rate p))
        (pipeline_execution_with_tensor_core p) in
    h ← history;
    call init;;
    set_tpu_embedding (TPUEmbedding_new (h ++ [init]));;
    set_gradient_multiplier_schedule
      (layer_gradient_multiplier_schedule self);;
    set_sequence_features (list_to_set sequence_features);;
    let feature_names := count_feature_names self in
    if any_above_one feature_names
    then raise (ValueError (KeyUsedByMultipleTables feature_names))
    else
      set_feature_names (dom feature_names);;
      mret (with_tpu_embedding_manager true self)
  else mret self.

(** [_CheckIdsMap] (lines 515-526) *)
Definition valid_keys (self : TPUEmbeddingLayer) : gset string :=
  foldl (λ acc table, foldl (λ acc input_key, acc ∪ {[input_key]})
                            acc (input_keys table))
        ∅ (tables self).

Definition _CheckIdsMap (self : TPUEmbeddingLayer)
    (ids_map : NestedMap Ids) : M unit :=
  let valid_keys := valid_keys self in
  let invalid_keys := NestedMap.Keys ids_map ∖ valid_keys in
  if bool_decide (invalid_keys ≠ ∅)
  then raise (ValueError (InvalidInputKeys invalid_keys valid_keys))
  else mret tt.

(** [EmbLookup] (lines 528-563) *)
Definition EmbLookup (self : TPUEmbeddingLayer) (ids_map : NestedMap Ids)
  : M (NestedMap Tensor) :=
  _CheckIdsMap self ids_map;;
  let p := params self in
  if IsTpuTraining p
  then
    if tpu_embedding_manager self
    then Lookup (Some ids_map)
    else raise AttributeError
  else
    foldl (λ (ret : M (NestedMap Tensor)) table,
             ret ← ret;
             slice ← lift (NestedMap.GetSlice ids_map
                       (list_to_set (input_keys table)
                          ∩ NestedMap.Keys ids_map));
             mret (NestedMap.Update ret
                     (CpuEmbLookup table slice (partition_strategy p))))
          (mret ∅) (tables self).

(** *** Sequences of operations on the singleton *)

Inductive Op :=
  | OpEnqueue (batch : NestedMap Ids)
  | OpDequeue
  | OpLookup (ids : option (NestedMap Ids))
  | OpApplyGradients (gradients : NestedMap Tensor)
  | OpAddSummaryTensor (name : string) (value : Tensor) (weight : Q)
  | OpCreateLayerVariables (layer : TPUEmbeddingLayer)
  | OpEmbLookup (layer : TPUEmbeddingLayer) (ids_map : NestedMap Ids)
  (* the public attributes, written from outside this file *)
  | OpSetTpuEmbedding (c : Coordinator)
  | OpSetFeatureNames (feature_names : gset string)
  | OpSetSequenceFeatures (features : gset string)
  | OpSetGradientMultiplierSchedule (schedule : Schedule)
  | OpSetEnabled (b : bool).

Definition exec (op : Op) (g : Env) : Env :=
  match op with
  | OpEnqueue batch => (Enqueue batch g).2
  | OpDequeue => (Dequeue g).2
  | OpLookup ids => (Lookup ids g).2
  | OpApplyGradients gradients => (ApplyGradients gradients g).2
  | OpAddSummaryTensor name value weight =>
      (AddSummaryTensor name value weight g).2
  | OpCreateLayerVariables layer => (_CreateLayerVariables layer g).2
  | OpEmbLookup layer ids_map => (EmbLookup layer ids_map g).2
  | OpSetTpuEmbedding c => (set_tpu_embedding c g).2
  | OpSetFeatureNames f => (set_feature_names f g).2
  | OpSetSequenceFeatures f => (set_sequence_features f g).2
  | OpSetGradientMultiplierSchedule s =>
      (set_gradient_multiplier_schedule s g).2
  | OpSetEnabled b => (update (with_enabled b) g).2
  end.

Definition run (ops : list Op) (g : Env) : Env := foldl (flip exec) g ops.

Definition is_dequeue (op : Op) : bool :=
  match op with OpDequeue => true | _ => false end.

(** The operations this file itself performs on the singleton: the
    manager's methods and the layer's.  The attribute writes happen only
    inside [_CreateLayerVariables]. *)
Definition in_file (op : Op) : bool :=
  match op with
  | OpSetTpuEmbedding _ | OpSetFeatureNames _ | OpSetSequenceFeatures _
  | OpSetGradientMultiplierSchedule _ | OpSetEnabled _ => false
  | _ => true
  end.

Definition start : Env := {| manager := __init__; calls := [] |}.

Inductive Reachable : Env → Prop :=
  | Reachable_start : Reachable start
  | Reachable_step g op :
      Reachable g → in_file op = true → Reachable (exec op g).

End Layer.

(** ** Notions the properties are stated with *)

Section Notions.
Context `{O : Oracle}.

(** A computation keeps a property of the singleton, whether it returns or
    raises. *)
Definition keeps (P : _TPUEmbeddingManager → Prop) {A} (x : M A) : Prop :=
  ∀ g, P (manager g) → P (manager (x g).2).

(** The shape of the singleton in the states this file puts it in: a
    disabled manager has no coordinator and an empty cache, an enabled one
    has its coordinator and its schedule. *)
Definition well_formed (m : _TPUEmbeddingManager) : Prop :=
  if enabled m
  then is_Some (_tpu_embedding m)
       ∧ is_Some (_gradient_multiplier_schedule m)
  else _tpu_embedding m = None ∧ _activations m = ∅.

(** Number of occurrences of a key in a list of keys. *)
Definition occurrences (k : string) (keys : list string) : nat :=
  length (filter (λ x, x = k) keys).

(** The key [k] is declared by two distinct tables of the layer. *)
Definition declared_twice (layer : TPUEmbeddingLayer) (k : string) : Prop :=
  ∃ i j ti tj, i ≠ j
    ∧ tables layer !! i = Some ti ∧ tables layer !! j = Some tj
    ∧ k ∈ input_keys ti ∧ k ∈ input_keys tj.

(** Number of coordinators built so far. *)
Definition coordinators_built (g : Env) : nat :=
  length (List.filter is_init (calls g)).

(** "Variable construction raises a configuration error, and no coordinator
    is built when it fires." *)
Definition raises_before_building (layer : TPUEmbeddingLayer) (g : Env)
  : Prop :=
  (∃ msg, (_CreateLayerVariables layer g).1 = Raise (ValueError msg))
  ∧ coordinators_built (_CreateLayerVariables layer g).2
    = coordinators_built g.

(** The constructor call a layer makes, and the singleton as the layer
    leaves it once the coordinator, the schedule and the sequence features
    are stored. *)
Definition init_call (layer : TPUEmbeddingLayer) : Call :=
  TPUEmbedding_init (declare_features layer).1
    (CreateOptimizerFn layer (learning_rate (params layer)))
    (pipeline_execution_with_tensor_core (params layer)).

Definition initialised (layer : TPUEmbeddingLayer) (g : Env)
  : _TPUEmbeddingManager :=
  with_sequence_features (list_to_set (declare_features layer).2)
    (with_gradient_multiplier_schedule
       (Some (layer_gradient_multiplier_schedule layer))
       (with_tpu_embedding
          (Some (TPUEmbedding_new (calls g ++ [init_call layer])))
          (with_enabled true (manager g)))).

End Notions.

(** ** A symbolic backend

    Tensors are the terms a TensorFlow graph would hold; the coordinator
    and the schedule are numbered objects.  It is the backend on which the
    scenarios of the specification are run. *)

Module Sym.

#[local] Set Warnings "-register-all".

Inductive tensor :=
  | Vec (l : list Q)
  | Const (q : Q)
  | Mul (a b : tensor)
  | Sqrt (a : tensor)
  | SumSq (l : list tensor)
  | Lookup_ (table : string) (ids : list Z) (partition_strategy : string)
  | ScheduleValue (s : nat) (step : nat).

Definition backend : Backend := {|
  Tensor := tensor;
  Ids := list Z;
  Coordinator := nat;
  Schedule := nat;
  TableConfig := string;
  Optimizer := Q;
  tf_mul := Mul;
  tf_sqrt := Sqrt;
  tf_constant := Const;
  tf_convert_to_tensor := Const;
  SumSquared := SumSq;
  tf_sequence_lookup := Lookup_;
  tf_combiner_lookup := Lookup_;
|}.

(** The coordinator built after [n] calls is object [n]; every dequeue
    answers the activations of the specification's scenario; a schedule's
    value is a term depending on the number of calls made. *)
#[local] Existing Instance backend.

Definition new_coordinator (h : list (@Call backend)) : nat :=
  List.length h.
Definition activations_of_scenario (c : nat) (h : list (@Call backend))
  : NestedMap tensor := {["a" := Vec [1; 2]%Q]}.
Definition schedule_value (s : nat) (h : list (@Call backend)) : tensor :=
  ScheduleValue s (List.length h).

Definition oracle : @Oracle backend :=
  @Build_Oracle backend new_coordinator activations_of_scenario
    schedule_value.

Definition table (keys : list string) (seq_len : Z)
  : @TPUEmbeddingTable backend :=
  {| input_keys := keys; max_sequence_length := seq_len;
     table_config := "table_config" |}.

Definition layer (ts : list (@TPUEmbeddingTable backend))
  : @TPUEmbeddingLayer backend :=
  {| params := {| batch_size := 8; learning_rate := 1;
                  pipeline_execution_with_tensor_core := false;
                  partition_strategy := "mod"; IsTpuTraining := true |};
     tables := ts;
     CreateOptimizerFn := λ lr, lr;
     layer_gradient_multiplier_schedule := 0;
     tpu_embedding_manager := false |}.

(** A manager a layer has initialised, holding the activations of the
    scenario. *)
Definition enabled_manager : @_TPUEmbeddingManager backend := {|
  enabled := true;
  _tpu_embedding := Some 1;
  _feature_names := {["a"]};
  _gradient_multiplier_schedule := Some 0;
  _summary_tensors := [];
  _sequence_features := ∅;
  _activations := {["a" := Vec [1; 2]%Q]};
|}.

Definition enabled_env : @Env backend :=
  {| manager := enabled_manager; calls := [] |}.

(** The disabled singleton of a fresh process. *)
Definition disabled_env : @Env backend := start.

Definition batch : NestedMap (list Z) := {["a" := [7; 8]%Z]}.

(** The requested keys of the scenario: "a" is cached, "b" is not. *)
Definition ids_ab : NestedMap (list Z) :=
  <["a" := [7; 8]%Z]> (<["b" := [9]%Z]> ∅).

Definition gradients : NestedMap tensor := {["a" := Vec [3; 4]%Q]}.

(** Two tables that both declare the key "f". *)
Definition duplicate_layer : @TPUEmbeddingLayer backend :=
  layer [table ["f"] 0; table ["f"; "h"] 0].

Definition single_layer : @TPUEmbeddingLayer backend :=
  layer [table ["a"] 0].

End Sym.

(** ** The rest of TPUEmbeddingTable *)

Section Table.
Context `{O : Oracle}.

(** [_LearningRateFn] (lines 134-137), the closure [__init__] hands to the
    table's optimizer; [name], [schedule] and [learning_rate] are the
    [p.name], [self.schedule] and [p.learning_rate] it captures.  The
    product of a tensor and a Python float converts the float. *)
Definition _LearningRateFn (name : string) (schedule : Schedule)
    (learning_rate : Q) : M Tensor :=
  h ← history;
  call (Value schedule);;
  let lr :=
    tf_mul (Value_result schedule h) (tf_convert_to_tensor learning_rate) in
  AddSummaryTensor ("tpu_embedding_lr/" +:+ name) lr 1;;
  mret lr.

End Table.

(** What [GetDeviceName] reads of the table: [self.params.is_inference],
    [self.do_eval] and [self.cluster.params.worker.name]. *)
Record Placement := {
  is_inference : bool;
  do_eval : bool;
  worker_name : string;
}.

Inductive DeviceName :=
  | Returns (device : option string)
  | NotImplementedError (msg : string).

(** [GetDeviceName] (lines 153-164) *)
Definition GetDeviceName (self : Placement) (host_id : Z) : DeviceName :=
  if is_inference self then Returns None
  else if do_eval self
  then NotImplementedError "Pending authorship of host-driven eval program"
  else Returns (Some (worker_name self +:+ "/replica:0/task:"
                        +:+ pretty host_id +:+ "/device:CPU:0")).

(** ** Further notions *)

Section MoreNotions.
Context `{O : Oracle}.

(** A computation that leaves the whole state, call history included, as
    it was. *)
Definition reads_only {A} (x : M A) : Prop := ∀ g, (x g).2 = g.

(** All the keys the tables declare, in declaration order, and those of
    the tables with a positive [max_sequence_length]. *)
Definition declared_keys (layer : TPUEmbeddingLayer) : list string :=
  concat (input_keys <$> tables layer).

Definition is_sequence_table (table : TPUEmbeddingTable) : bool :=
  (0 <? max_sequence_length table)%Z.

Definition sequence_keys (layer : TPUEmbeddingLayer) : list string :=
  concat (input_keys <$> List.filter is_sequence_table (tables layer)).

(** The feature configuration [_CreateLayerVariables] writes for a key of
    [table]: the table's configuration, with an output shape exactly for a
    sequence table. *)
Definition feature_config_for (p : Params) (table : TPUEmbeddingTable)
  : FeatureConfig TableConfig :=
  {| fc_table := table_config table;
     fc_output_shape :=
       if is_sequence_table table
       then Some [batch_size p; max_sequence_length table]
       else None |}.

(** The activation [CpuEmbLookup] computes for one ids tensor. *)
Definition cpu_activation (table : TPUEmbeddingTable)
    (partition_strategy : string) (ids : Ids) : Tensor :=
  if is_sequence_table table
  then tf_sequence_lookup (table_config table) ids partition_strategy
  else tf_combiner_lookup (table_config table) ids partition_strategy.

(** One round of the CPU loop of [EmbLookup], on maps. *)
Definition cpu_step (p : Params) (ids_map : NestedMap Ids)
    (ret : NestedMap Tensor) (table : TPUEmbeddingTable) : NestedMap Tensor :=
  NestedMap.Update ret
    (cpu_activation table (partition_strategy p)
       <$> filter (λ kv, kv.1 ∈ input_keys table) ids_map).

(** The state after [n] evaluations of a table's learning rate. *)
Definition evaluate_learning_rate (name : string) (schedule : Schedule)
    (learning_rate : Q) (n : nat) (g : Env) : Env :=
  Nat.iter n (λ g, (_LearningRateFn name schedule learning_rate g).2) g.

(** "Detected at layer-construction time": constructing the layer's
    variables raises. *)
Definition raised_at_construction (layer : TPUEmbeddingLayer) (g : Env)
  : Prop :=
  ∃ e, (_CreateLayerVariables layer g).1 = Raise e.

Definition is_Value (c : Call) : bool :=
  match c with
  | Value _ => true
  | _ => false
  end.

(** The states the singleton takes when driven by this file: by the
    manager's and the layer's operations and by the tables' learning-rate
    functions, which the optimizer may evaluate at any time. *)
Inductive Reached : Env → Prop :=
  | Reached_start : Reached start
  | Reached_op g op :
      Reached g → in_file op = true → Reached (exec op g)
  | Reached_learning_rate g name schedule learning_rate :
      Reached g →
      Reached (_LearningRateFn name schedule learning_rate g).2.

End MoreNotions.

(** ** More scenarios on the symbolic backend *)

Module Scenario.

#[local] Existing Instance Sym.backend.

(** A coordinator whose successive dequeues answer different keys (each
    dequeue adds two calls to the history). *)
Definition alternating_activations (c : nat) (h : list (@Call Sym.backend))
  : NestedMap Sym.tensor :=
  if Nat.even (Nat.div2 (List.length h))
  then {["a" := Sym.Vec [1; 2]%Q]}
  else {["b" := Sym.Vec [5]%Q]}.

Definition alternating_oracle : @Oracle Sym.backend :=
  @Build_Oracle Sym.backend Sym.new_coordinator alternating_activations
    Sym.schedule_value.

(** An enabled manager whose coordinator and schedule were never stored. *)
Definition enabled_only : @Env Sym.backend :=
  {| manager := with_enabled true
                  (with_activations {["a" := Sym.Vec [1; 2]%Q]} __init__);
     calls := [] |}.

(** An enabled manager with a schedule and no coordinator. *)
Definition without_coordinator : @Env Sym.backend :=
  {| manager := with_gradient_multiplier_schedule (Some 0)
                  (manager enabled_only);
     calls := [] |}.

(** A disabled manager whose coordinator was stored from outside. *)
Definition preset_coordinator : @Env Sym.backend :=
  {| manager := with_tpu_embedding (Some 9) __init__; calls := [] |}.

(** Sequence table over "s", plain table over "a". *)
Definition mixed_layer : @TPUEmbeddingLayer Sym.backend :=
  Sym.layer [Sym.table ["s"] 4; Sym.table ["a"] 0].

(** The same layers outside TPU training. *)
Definition on_cpu (layer : @TPUEmbeddingLayer Sym.backend)
  : @TPUEmbeddingLayer Sym.backend :=
  {| params := {| batch_size := 8; learning_rate := 1;
                  pipeline_execution_with_tensor_core := false;
                  partition_strategy := "mod"; IsTpuTraining := false |};
     tables := tables layer;
     CreateOptimizerFn := CreateOptimizerFn layer;
     layer_gradient_multiplier_schedule :=
       layer_gradient_multiplier_schedule layer;
     tpu_embedding_manager := tpu_embedding_manager layer |}.

(** One table declaring the key "f" twice. *)
Definition repeated_key_layer : @TPUEmbeddingLayer Sym.backend :=
  Sym.layer [Sym.table ["f"; "f"] 0].

Definition ids_sa : NestedMap (list Z) :=
  <["s" := [1; 2]%Z]> (<["a" := [3]%Z]> ∅).

Definition training_placement : Placement :=
  {| is_inference := false; do_eval := false;
     worker_name := "/job:trainer" |}.

End Scenario.

(** * Properties *)

#[local] Set Warnings "-clear-no-such-hyp".

(** ** NestedMap *)

Section NestedMapFacts.
Context {A : Type}.
Implicit Types (m : NestedMap A) (keys : gset string) (l : list string).

Lemma GetItem_Some m k v : m !! k = Some v → NestedMap.GetItem m k = Ok v.
Proof. unfold NestedMap.GetItem. by intros ->. Qed.

(** Slicing at keys that are all present never raises, and keeps exactly
    the items at those keys. *)
Lemma GetSlice_list m l :
  (∀ k, k ∈ l → is_Some (m !! k)) →
  foldr (λ k acc, ret ← acc; v ← NestedMap.GetItem m k;
                  Ok (NestedMap.Set_ ret k v)) (Ok ∅) l
  = Ok (filter (λ kv, kv.1 ∈ l) m).
Proof.
  induction l as [|k l IH]; intros Hin; simpl.
  - f_equal. apply map_eq. intros i. rewrite lookup_empty.
    symmetry. apply map_lookup_filter_None. right. intros x _ Hi.
    simpl in Hi. by apply elem_of_nil in Hi.
  - rewrite IH by (intros j Hj; apply Hin; by right).
    destruct (Hin k) as [v Hv]; [by left|].
    unfold mbind, Res_bind. rewrite (GetItem_Some _ _ _ Hv).
    f_equal. unfold NestedMap.Set_. apply map_eq. intros j.
    destruct (decide (k = j)) as [<-|Hne].
    + rewrite lookup_insert_eq. symmetry.
      apply map_lookup_filter_Some. split; [done|]. simpl. by left.
    + rewrite lookup_insert_ne by done.
      apply option_eq. intros x. rewrite !map_lookup_filter_Some. simpl.
      rewrite elem_of_cons. naive_solver.
Qed.

Lemma GetSlice_present m keys :
  keys ⊆ dom m →
  NestedMap.GetSlice m keys = Ok (filter (λ kv, kv.1 ∈ keys) m).
Proof.
  intros Hsub. unfold NestedMap.GetSlice. rewrite GetSlice_list.
  - f_equal. apply map_filter_ext. intros i x _. simpl.
    by rewrite elem_of_elements.
  - intros k Hk. apply elem_of_dom, Hsub. by apply elem_of_elements.
Qed.

(** A slice at a key that is absent does raise. *)
Example GetSlice_missing_key :
  NestedMap.GetSlice ({["a" := 1]} : NestedMap nat) {["a"; "b"]}
  = Raise (KeyError "b").
Proof. vm_compute. reflexivity. Qed.

Lemma GetSlice_empty m : NestedMap.GetSlice m ∅ = Ok ∅.
Proof. unfold NestedMap.GetSlice. by rewrite elements_empty. Qed.

(** The slice [Lookup] takes: at the requested keys that are cached. *)
Lemma GetSlice_intersection {I} m (ids : NestedMap I) :
  NestedMap.GetSlice m (NestedMap.Keys ids ∩ NestedMap.Keys m)
  = Ok (filter (λ kv, kv.1 ∈ dom ids) m).
Proof.
  unfold NestedMap.Keys. rewrite GetSlice_present by set_solver.
  f_equal. apply map_filter_ext. intros i x Hx. simpl.
  rewrite elem_of_intersection, (elem_of_dom m). naive_solver.
Qed.

Lemma filter_dom_keys {I} m (ids : NestedMap I) :
  dom (filter (λ kv, kv.1 ∈ dom ids) m) = dom ids ∩ dom m.
Proof.
  apply set_eq. intros k.
  rewrite elem_of_intersection, !elem_of_dom. split.
  - intros [x Hx]. apply map_lookup_filter_Some in Hx as [Hm Hk].
    simpl in Hk. apply elem_of_dom in Hk. by rewrite Hm.
  - intros [Hk [x Hx]]. exists x. apply map_lookup_filter_Some.
    split; [done|]. simpl. by apply elem_of_dom.
Qed.

Lemma truthy_Some_nonempty {I} (ids : NestedMap I) :
  ids ≠ ∅ → NestedMap.truthy (Some ids) = true.
Proof.
  intros Hne. unfold NestedMap.truthy.
  by rewrite bool_decide_eq_false_2.
Qed.

End NestedMapFacts.

(** ** What each manager method computes *)

Section ManagerFacts.
Context `{O : Oracle}.
Implicit Types (g : Env) (c : Coordinator) (s : Schedule).

Ltac step := unfold mbind, M_bind, mret, M_ret, raise, lift, update, call,
  history, TPU_EMBEDDING_MANAGER, tpu_embedding,
  gradient_multiplier_schedule; simpl.

Lemma with_activations_id (m : _TPUEmbeddingManager) :
  with_activations (_activations m) m = m.
Proof. by destruct m. Qed.

Lemma Enqueue_disabled g batch :
  enabled (manager g) = false →
  Enqueue batch g
  = (Ok tt, {| manager := with_activations ∅ (manager g);
               calls := calls g |}).
Proof. intros He. unfold Enqueue. step. by rewrite He. Qed.

Lemma Enqueue_enabled g batch c :
  enabled (manager g) = true →
  _tpu_embedding (manager g) = Some c →
  Enqueue batch g
  = (Ok tt, {| manager := with_activations ∅ (manager g);
               calls := calls g ++ [enqueue c batch] |}).
Proof. intros He Hc. unfold Enqueue. step. rewrite He. step. by rewrite Hc. Qed.

Lemma Enqueue_enabled_unset g batch :
  enabled (manager g) = true →
  _tpu_embedding (manager g) = None →
  Enqueue batch g
  = (Raise AttributeError,
     {| manager := with_activations ∅ (manager g); calls := calls g |}).
Proof. intros He Hc. unfold Enqueue. step. rewrite He. step. by rewrite Hc. Qed.

(** Whatever the state, and whether or not it raises, [Enqueue] leaves
    an empty cache and the other fields as they were. *)
Lemma Enqueue_manager g batch :
  manager (Enqueue batch g).2 = with_activations ∅ (manager g).
Proof.
  destruct (enabled (manager g)) eqn:He.
  - destruct (_tpu_embedding (manager g)) as [c|] eqn:Hc.
    + by rewrite (Enqueue_enabled _ _ c).
    + by rewrite Enqueue_enabled_unset.
  - by rewrite Enqueue_disabled.
Qed.

Lemma Dequeue_disabled g :
  enabled (manager g) = false →
  Dequeue g = (Ok (_activations (manager g)), g).
Proof. intros He. unfold Dequeue. step. by rewrite He. Qed.

Lemma Dequeue_enabled g c :
  enabled (manager g) = true →
  _tpu_embedding (manager g) = Some c →
  Dequeue g
  = (Ok (dequeue_result c (calls g)),
     {| manager := with_activations (dequeue_result c (calls g))
                     (manager g);
        calls := calls g ++ [dequeue c;
                             watch (dequeue_result c (calls g))] |}).
Proof.
  intros He Hc. unfold Dequeue. step. rewrite He. step. rewrite Hc.
  simpl. by rewrite <-app_assoc.
Qed.

Lemma Dequeue_enabled_unset g :
  enabled (manager g) = true →
  _tpu_embedding (manager g) = None →
  Dequeue g = (Raise AttributeError, g).
Proof. intros He Hc. unfold Dequeue. step. rewrite He. step. by rewrite Hc. Qed.

Lemma Lookup_falsy g ids :
  NestedMap.truthy ids = false →
  Lookup ids g = (Ok (_activations (manager g)), g).
Proof.
  intros Hf. unfold Lookup, mbind, M_bind, TPU_EMBEDDING_MANAGER.
  by rewrite Hf.
Qed.

Lemma Lookup_disabled g ids :
  enabled (manager g) = false →
  Lookup ids g = (Ok (_activations (manager g)), g).
Proof.
  intros He. unfold Lookup, mbind, M_bind, TPU_EMBEDDING_MANAGER.
  by rewrite He, andb_false_r.
Qed.

Lemma Lookup_slice g (ids : NestedMap Ids) :
  enabled (manager g) = true → ids ≠ ∅ →
  Lookup (Some ids) g
  = (Ok (filter (λ kv, kv.1 ∈ dom ids) (_activations (manager g))), g).
Proof.
  intros He Hne. unfold Lookup, mbind, M_bind, TPU_EMBEDDING_MANAGER, lift.
  rewrite He, (truthy_Some_nonempty _ Hne). simpl.
  by rewrite GetSlice_intersection.
Qed.

(** [Lookup] never changes the state. *)
Lemma Lookup_state g ids : (Lookup ids g).2 = g.
Proof.
  destruct (NestedMap.truthy ids) eqn:Ht.
  - destruct ids as [ids|]; [|done].
    destruct (enabled (manager g)) eqn:He.
    + rewrite Lookup_slice; [done..|].
      intros ->. unfold NestedMap.truthy in Ht.
      by rewrite bool_decide_eq_true_2 in Ht.
    + by rewrite Lookup_disabled.
  - by rewrite Lookup_falsy.
Qed.

(** With an empty cache every lookup is empty. *)
Lemma Lookup_empty_cache g ids :
  _activations (manager g) = ∅ → (Lookup ids g).1 = Ok ∅.
Proof.
  intros Ha. unfold Lookup, mbind, M_bind, TPU_EMBEDDING_MANAGER, lift.
  destruct (NestedMap.truthy ids && enabled (manager g)); simpl.
  - rewrite Ha. unfold NestedMap.Keys. rewrite dom_empty_L.
    replace (from_option dom ∅ ids ∩ ∅) with (∅ : gset string)
      by set_solver.
    by rewrite GetSlice_empty.
  - by rewrite Ha.
Qed.

Lemma ApplyGradients_disabled g gradients :
  enabled (manager g) = false → ApplyGradients gradients g = (Ok ∅, g).
Proof. intros He. unfold ApplyGradients. step. by rewrite He. Qed.

Lemma ApplyGradients_enabled g gradients c s :
  enabled (manager g) = true →
  _tpu_embedding (manager g) = Some c →
  _gradient_multiplier_schedule (manager g) = Some s →
  ApplyGradients gradients g
  = (Ok (metrics (_activations (manager g))
           ((λ t, tf_mul t (Value_result s (calls g))) <$> gradients)
           (Value_result s (calls g))),
     {| manager := manager g;
        calls := calls g ++
          [Value s;
           apply_gradients c
             ((λ t, tf_mul t (Value_result s (calls g)))
                <$> gradients)] |}).
Proof.
  intros He Hc Hs. unfold ApplyGradients. step. rewrite He. step.
  rewrite Hs. step. rewrite Hc. simpl. unfold Lookup. step.
  by rewrite <-app_assoc.
Qed.

Lemma ApplyGradients_manager g gradients :
  manager (ApplyGradients gradients g).2 = manager g.
Proof.
  unfold ApplyGradients. step.
  destruct (enabled (manager g)); step; [|done].
  destruct (_gradient_multiplier_schedule (manager g)); step; [|done].
  destruct (_tpu_embedding (manager g)); step; [|done].
  unfold Lookup. by step.
Qed.

End ManagerFacts.

(** ** Properties kept by the building blocks of the monad *)

Section FrameFacts.
Context `{O : Oracle}.
Context (P : _TPUEmbeddingManager → Prop).

Lemma keeps_ret {A} (a : A) : keeps P (mret a).
Proof. by intros g. Qed.

Lemma keeps_raise {A} e : keeps P (raise e : M A).
Proof. by intros g. Qed.

Lemma keeps_lift {A} (r : Res A) : keeps P (lift r).
Proof. by intros g. Qed.

Lemma keeps_call c : keeps P (call c).
Proof. by intros g. Qed.

Lemma keeps_history : keeps P history.
Proof. by intros g. Qed.

Lemma keeps_manager : keeps P TPU_EMBEDDING_MANAGER.
Proof. by intros g. Qed.

Lemma keeps_update f : (∀ m, P m → P (f m)) → keeps P (update f).
Proof. intros Hf g Hg. by apply Hf. Qed.

Lemma keeps_bind {X Y} (x : M X) (f : X → M Y) :
  keeps P x → (∀ a, keeps P (f a)) → keeps P (x ≫= f).
Proof.
  intros Hx Hf g Hg. unfold mbind, M_bind.
  specialize (Hx g Hg). destruct (x g) as [[a|e] g']; simpl in *.
  - by apply Hf.
  - done.
Qed.

Lemma keeps_if {A} (b : bool) (x y : M A) :
  keeps P x → keeps P y → keeps P (if b then x else y).
Proof. by destruct b. Qed.

Lemma keeps_foldl {A T} (f : M A → T → M A) (l : list T) :
  (∀ acc t, keeps P acc → keeps P (f acc t)) →
  ∀ acc, keeps P acc → keeps P (foldl f acc l).
Proof.
  intros Hf. induction l as [|t l IH]; intros acc Hacc; simpl; [done|].
  apply IH. by apply Hf.
Qed.

Lemma keeps_tpu_embedding : keeps P tpu_embedding.
Proof.
  apply keeps_bind; [apply keeps_manager|]. intros m.
  destruct (_tpu_embedding m); [apply keeps_ret | apply keeps_raise].
Qed.

Lemma keeps_gradient_multiplier_schedule :
  keeps P gradient_multiplier_schedule.
Proof.
  apply keeps_bind; [apply keeps_manager|]. intros m.
  destruct (_gradient_multiplier_schedule m);
    [apply keeps_ret | apply keeps_raise].
Qed.

Lemma keeps_Lookup ids : keeps P (Lookup ids).
Proof. intros g Hg. by rewrite Lookup_state. Qed.

Lemma keeps_ApplyGradients gradients : keeps P (ApplyGradients gradients).
Proof. intros g Hg. by rewrite ApplyGradients_manager. Qed.

Lemma keeps__CheckIdsMap layer ids_map : keeps P (_CheckIdsMap layer ids_map).
Proof.
  unfold _CheckIdsMap. apply keeps_if; [apply keeps_raise | apply keeps_ret].
Qed.

Lemma keeps_EmbLookup layer ids_map : keeps P (EmbLookup layer ids_map).
Proof.
  unfold EmbLookup. apply keeps_bind; [apply keeps__CheckIdsMap|].
  intros _. apply keeps_if.
  - apply keeps_if; [apply keeps_Lookup | apply keeps_raise].
  - apply keeps_foldl; [|apply keeps_ret]. intros acc t Hacc.
    apply keeps_bind; [done|]. intros r.
    apply keeps_bind; [apply keeps_lift|]. intros sl. apply keeps_ret.
Qed.

(** Properties that do not look at the fields a layer writes. *)
Hypothesis P_enabled : ∀ m b, P m → P (with_enabled b m).
Hypothesis P_feature_names : ∀ m f, P m → P (with_feature_names f m).
Hypothesis P_sequence_features :
  ∀ m f, P m → P (with_sequence_features f m).
Hypothesis P_schedule :
  ∀ m s, P m → P (with_gradient_multiplier_schedule s m).
Hypothesis P_summary : ∀ m l, P m → P (with_summary_tensors l m).
Hypothesis P_coordinator : ∀ c, keeps P (set_tpu_embedding c).

Lemma keeps_AddSummaryTensor name value weight :
  keeps P (AddSummaryTensor name value weight).
Proof. apply keeps_update. intros m. apply P_summary. Qed.

Lemma keeps__CreateLayerVariables layer :
  keeps P (_CreateLayerVariables layer).
Proof.
  unfold _CreateLayerVariables.
  apply keeps_if; [apply keeps_ret|].
  destruct (declare_features layer) as [feature_config sequence_features].
  apply keeps_bind; [apply keeps_manager|]. intros m.
  apply keeps_if; [|apply keeps_ret].
  apply keeps_bind; [apply keeps_update; auto|]. intros _.
  apply keeps_bind; [apply keeps_history|]. intros h.
  apply keeps_bind; [apply keeps_call|]. intros _.
  apply keeps_bind; [apply P_coordinator|]. intros _.
  apply keeps_bind; [apply keeps_update; auto|]. intros _.
  apply keeps_bind; [apply keeps_update; auto|]. intros _.
  apply keeps_if; [apply keeps_raise|].
  apply keeps_bind; [apply keeps_update; auto|]. intros _.
  apply keeps_ret.
Qed.

End FrameFacts.

(** ** The layer: declared keys and the key counter *)

Section LayerFacts.
Context `{O : Oracle}.
Implicit Types (layer : TPUEmbeddingLayer) (g : Env).

Lemma add_keys_spec (keys : list string) (acc : gset string) k :
  k ∈ foldl (λ acc input_key, acc ∪ {[input_key]}) acc keys
  ↔ k ∈ acc ∨ k ∈ keys.
Proof.
  revert acc. induction keys as [|x keys IH]; intros acc; simpl.
  - rewrite elem_of_nil. naive_solver.
  - rewrite IH, elem_of_union, elem_of_singleton, elem_of_cons.
    naive_solver.
Qed.

Lemma add_tables_spec (ts : list TPUEmbeddingTable) (acc : gset string) k :
  k ∈ foldl (λ acc table,
               foldl (λ acc input_key, acc ∪ {[input_key]}) acc
                     (input_keys table)) acc ts
  ↔ k ∈ acc ∨ ∃ table, table ∈ ts ∧ k ∈ input_keys table.
Proof.
  revert acc. induction ts as [|t ts IH]; intros acc; simpl.
  - split; [by left|]. intros [?|(t & Ht & _)]; [done|].
    by apply elem_of_nil in Ht.
  - rewrite IH, add_keys_spec. split.
    + intros [[?|?]|(t' & Ht' & Hk)]; [by left| |].
      * right. exists t. split; [by left|done].
      * right. exists t'. split; [by right|done].
    + intros [?|(t' & Ht' & Hk)]; [by left; left|].
      apply elem_of_cons in Ht' as [->|Ht'].
      * by left; right.
      * right. by exists t'.
Qed.

(** The valid keys are the keys some table declares. *)
Lemma valid_keys_spec layer k :
  k ∈ valid_keys layer
  ↔ ∃ table, table ∈ tables layer ∧ k ∈ input_keys table.
Proof.
  unfold valid_keys. rewrite add_tables_spec, elem_of_empty. naive_solver.
Qed.

Lemma occurrences_app k (l1 l2 : list string) :
  occurrences k (l1 ++ l2) = occurrences k l1 + occurrences k l2.
Proof. unfold occurrences. by rewrite filter_app, length_app. Qed.

Lemma occurrences_elem_of k (l : list string) :
  k ∈ l → 1 ≤ occurrences k l.
Proof.
  intros Hk. unfold occurrences.
  assert (Hf : k ∈ filter (λ x, x = k) l) by by apply list_elem_of_filter.
  destruct (filter (λ x, x = k) l); [by apply elem_of_nil in Hf|simpl; lia].
Qed.

(** [Counter.update] adds, for each key, its number of occurrences. *)
Lemma Counter_update_lookup (keys : list string) (c : gmap string nat) k :
  default 0 (Counter_update c keys !! k)
  = default 0 (c !! k) + occurrences k keys.
Proof.
  revert c. unfold Counter_update, occurrences.
  induction keys as [|x keys IH]; intros c; simpl; [lia|].
  rewrite IH. destruct (decide (x = k)) as [->|Hne].
  - rewrite lookup_insert_eq, filter_cons_True by done. simpl. lia.
  - rewrite lookup_insert_ne, filter_cons_False by done. done.
Qed.

Lemma count_tables_lookup (ts : list TPUEmbeddingTable)
    (c : gmap string nat) k :
  default 0 (foldl (λ c table, Counter_update c (input_keys table)) c ts
               !! k)
  = default 0 (c !! k) + occurrences k (concat (input_keys <$> ts)).
Proof.
  revert c. induction ts as [|t ts IH]; intros c; csimpl.
  - unfold occurrences. simpl. lia.
  - rewrite IH, Counter_update_lookup, occurrences_app. lia.
Qed.

Lemma count_feature_names_lookup layer k :
  default 0 (count_feature_names layer !! k)
  = occurrences k (concat (input_keys <$> tables layer)).
Proof.
  unfold count_feature_names. by rewrite count_tables_lookup, lookup_empty.
Qed.

Lemma occurrences_two_tables (ts : list TPUEmbeddingTable) i j ti tj k :
  i ≠ j → ts !! i = Some ti → ts !! j = Some tj →
  k ∈ input_keys ti → k ∈ input_keys tj →
  2 ≤ occurrences k (concat (input_keys <$> ts)).
Proof.
  assert (Hone : ∀ (l : list TPUEmbeddingTable) n t,
    l !! n = Some t → k ∈ input_keys t →
    1 ≤ occurrences k (concat (input_keys <$> l))).
  { induction l as [|x l IH]; intros [|n] t Hn Hk; simplify_eq/=;
      csimpl; rewrite occurrences_app.
    - pose proof (occurrences_elem_of _ _ Hk). lia.
    - pose proof (IH _ _ Hn Hk). lia. }
  revert i j. induction ts as [|x ts IH];
    intros [|i] [|j] Hij Hi Hj Hki Hkj; simplify_eq/=;
    csimpl; rewrite occurrences_app.
  - pose proof (occurrences_elem_of _ _ Hki).
    pose proof (Hone _ _ _ Hj Hkj). lia.
  - pose proof (occurrences_elem_of _ _ Hkj).
    pose proof (Hone _ _ _ Hi Hki). lia.
  - assert (Hne : i ≠ j) by congruence.
    pose proof (IH i j Hne Hi Hj Hki Hkj). lia.
Qed.

Lemma any_above_one_true (c : gmap string nat) k :
  2 ≤ default 0 (c !! k) → any_above_one c = true.
Proof.
  intros Hk. unfold any_above_one. apply existsb_exists.
  destruct (c !! k) as [v|] eqn:Hv; simpl in Hk; [|lia].
  exists (k, v). split.
  - apply list_elem_of_In. by apply elem_of_map_to_list.
  - simpl. apply Nat.ltb_lt. lia.
Qed.

(** A key declared by two tables makes the duplicate test fire. *)
Lemma declared_twice_counted layer k :
  declared_twice layer k → any_above_one (count_feature_names layer) = true.
Proof.
  intros (i & j & ti & tj & Hij & Hi & Hj & Hki & Hkj).
  apply (any_above_one_true _ k). rewrite count_feature_names_lookup.
  by eapply occurrences_two_tables.
Qed.

End LayerFacts.

(** ** Layer variable construction *)

Section ConstructionFacts.
Context `{O : Oracle}.
Implicit Types (layer : TPUEmbeddingLayer) (g : Env).

Ltac step := unfold mbind, M_bind, mret, M_ret, raise, lift, update, call,
  history, TPU_EMBEDDING_MANAGER, set_tpu_embedding,
  set_gradient_multiplier_schedule, set_sequence_features,
  set_feature_names, __bool__; simpl.

Lemma CreateLayerVariables_not_tpu_training layer g :
  IsTpuTraining (params layer) = false →
  _CreateLayerVariables layer g = (Ok layer, g).
Proof. intros Ht. unfold _CreateLayerVariables. by rewrite Ht. Qed.

Lemma CreateLayerVariables_enabled layer g :
  enabled (manager g) = true →
  _CreateLayerVariables layer g = (Ok layer, g).
Proof.
  intros He. unfold _CreateLayerVariables.
  destruct (IsTpuTraining (params layer)); simpl; [|done].
  destruct (declare_features layer). step. by rewrite He.
Qed.

(** The first construction in TPU training: the coordinator is built and
    stored, then the schedule and the sequence features, and only then are
    the keys counted. *)
Lemma CreateLayerVariables_first layer g :
  IsTpuTraining (params layer) = true →
  enabled (manager g) = false →
  _tpu_embedding (manager g) = None →
  _CreateLayerVariables layer g
  = if any_above_one (count_feature_names layer)
    then (Raise (ValueError
                   (KeyUsedByMultipleTables (count_feature_names layer))),
          {| manager := initialised layer g;
             calls := calls g ++ [init_call layer] |})
    else (Ok (with_tpu_embedding_manager true layer),
          {| manager := with_feature_names
                          (dom (count_feature_names layer))
                          (initialised layer g);
             calls := calls g ++ [init_call layer] |}).
Proof.
  intros Ht He Hc. unfold _CreateLayerVariables, initialised, init_call.
  rewrite Ht. simpl.
  destruct (declare_features layer) as [feature_config sequence_features].
  step. rewrite He. step. rewrite Hc. simpl.
  by destruct (any_above_one (count_feature_names layer)).
Qed.

(** The setter never replaces a stored coordinator. *)
Lemma set_tpu_embedding_keeps c0 c :
  keeps (λ m, _tpu_embedding m = Some c0) (set_tpu_embedding c).
Proof.
  intros g Hg. unfold set_tpu_embedding. step.
  rewrite Hg. by rewrite bool_decide_eq_true_2.
Qed.

Lemma set_tpu_embedding_keeps_cache c :
  keeps (λ m, _activations m = ∅) (set_tpu_embedding c).
Proof.
  intros g Hg. unfold set_tpu_embedding. step.
  by destruct (bool_decide _).
Qed.

Lemma Dequeue_manager g :
  ∃ a, manager (Dequeue g).2 = with_activations a (manager g).
Proof.
  destruct (enabled (manager g)) eqn:He.
  - destruct (_tpu_embedding (manager g)) as [c|] eqn:Hc.
    + rewrite (Dequeue_enabled _ c) by done. by eexists.
    + rewrite Dequeue_enabled_unset by done.
      exists (_activations (manager g)). by rewrite with_activations_id.
  - rewrite Dequeue_disabled by done.
    exists (_activations (manager g)). by rewrite with_activations_id.
Qed.

(** No operation, from this file or from outside, replaces or removes a
    stored coordinator. *)
Lemma exec_keeps_coordinator op g c0 :
  _tpu_embedding (manager g) = Some c0 →
  _tpu_embedding (manager (exec op g)) = Some c0.
Proof.
  intros Hg. destruct op; simpl.
  - by rewrite Enqueue_manager.
  - destruct (Dequeue_manager g) as [a ->]. done.
  - by rewrite Lookup_state.
  - by rewrite ApplyGradients_manager.
  - done.
  - revert g Hg.
    apply (keeps__CreateLayerVariables (λ m, _tpu_embedding m = Some c0));
      try done.
    apply set_tpu_embedding_keeps.
  - revert g Hg. apply (keeps_EmbLookup (λ m, _tpu_embedding m = Some c0)).
  - revert g Hg. apply set_tpu_embedding_keeps.
  - done.
  - done.
  - done.
  - done.
Qed.

Lemma run_keeps_coordinator ops g c0 :
  _tpu_embedding (manager g) = Some c0 →
  _tpu_embedding (manager (run ops g)) = Some c0.
Proof.
  revert g. induction ops as [|op ops IH]; intros g Hg; simpl; [done|].
  apply IH. by apply exec_keeps_coordinator.
Qed.

(** Only [Dequeue] fills the cache. *)
Lemma exec_keeps_empty_cache op g :
  is_dequeue op = false →
  _activations (manager g) = ∅ →
  _activations (manager (exec op g)) = ∅.
Proof.
  intros Hop Hg. destruct op; simpl; try done.
  - by rewrite Enqueue_manager.
  - by rewrite Lookup_state.
  - by rewrite ApplyGradients_manager.
  - revert g Hg.
    apply (keeps__CreateLayerVariables (λ m, _activations m = ∅));
      try done.
    apply set_tpu_embedding_keeps_cache.
  - revert g Hg. apply (keeps_EmbLookup (λ m, _activations m = ∅)).
  - revert g Hg. apply set_tpu_embedding_keeps_cache.
Qed.

Lemma run_keeps_empty_cache ops g :
  forallb (λ op, negb (is_dequeue op)) ops = true →
  _activations (manager g) = ∅ →
  _activations (manager (run ops g)) = ∅.
Proof.
  revert g. induction ops as [|op ops IH]; intros g Hops Hg; simpl; [done|].
  simpl in Hops. apply andb_true_iff in Hops as [Hop Hops].
  apply IH; [done|]. apply exec_keeps_empty_cache; [|done].
  by destruct (is_dequeue op).
Qed.

(** Every state the file reaches is well formed. *)
Lemma exec_well_formed op g :
  in_file op = true →
  well_formed (manager g) → well_formed (manager (exec op g)).
Proof.
  intros Hop Hg. destruct op; simpl; try done.
  - rewrite Enqueue_manager. revert Hg. unfold well_formed. simpl.
    destruct (enabled (manager g)); naive_solver.
  - destruct (enabled (manager g)) eqn:He.
    + destruct (_tpu_embedding (manager g)) as [c|] eqn:Hc.
      * rewrite (Dequeue_enabled _ c) by done. revert Hg.
        unfold well_formed. simpl. by rewrite He, Hc.
      * by rewrite Dequeue_enabled_unset.
    + by rewrite Dequeue_disabled.
  - by rewrite Lookup_state.
  - by rewrite ApplyGradients_manager.
  - destruct (enabled (manager g)) eqn:He.
    + by rewrite CreateLayerVariables_enabled.
    + destruct (IsTpuTraining (params layer)) eqn:Ht.
      * assert (Hc : _tpu_embedding (manager g) = None).
        { revert Hg. unfold well_formed. rewrite He. naive_solver. }
        rewrite CreateLayerVariables_first by done.
        destruct (any_above_one _); unfold well_formed; simpl; eauto.
      * by rewrite CreateLayerVariables_not_tpu_training.
  - revert g Hg. apply (keeps_EmbLookup well_formed).
Qed.

Lemma Reachable_well_formed g : Reachable g → well_formed (manager g).
Proof.
  induction 1 as [|g op _ IH Hop].
  - unfold well_formed. by simpl.
  - by apply exec_well_formed.
Qed.

(** An enabled manager the file has reached holds its coordinator and its
    schedule. *)
Lemma Reachable_enabled_initialised g :
  Reachable g → enabled (manager g) = true →
  ∃ c s, _tpu_embedding (manager g) = Some c
         ∧ _gradient_multiplier_schedule (manager g) = Some s.
Proof.
  intros Hr He. apply Reachable_well_formed in Hr.
  unfold well_formed in Hr. rewrite He in Hr.
  destruct Hr as [[c Hc] [s Hs]]. by exists c, s.
Qed.

(** Whatever the layer and the state, variable construction returns or
    raises one of its two ValueErrors. *)
Lemma CreateLayerVariables_outcomes layer g :
  (∃ layer', (_CreateLayerVariables layer g).1 = Ok layer')
  ∨ (_CreateLayerVariables layer g).1 = Raise (ValueError AlreadySet)
  ∨ (_CreateLayerVariables layer g).1
    = Raise (ValueError
               (KeyUsedByMultipleTables (count_feature_names layer))).
Proof.
  destruct (enabled (manager g)) eqn:He.
  { left. rewrite CreateLayerVariables_enabled by done. by eexists. }
  destruct (IsTpuTraining (params layer)) eqn:Ht.
  2: { left. rewrite CreateLayerVariables_not_tpu_training by done.
       by eexists. }
  destruct (_tpu_embedding (manager g)) as [c0|] eqn:Hc.
  - right. left. unfold _CreateLayerVariables. rewrite Ht. simpl.
    destruct (declare_features layer) as [feature_config sequence_features].
    step. rewrite He. step. rewrite Hc. by rewrite bool_decide_eq_true_2.
  - rewrite CreateLayerVariables_first by done.
    destruct (any_above_one (count_feature_names layer)).
    + by right; right.
    + left. by eexists.
Qed.

End ConstructionFacts.

(** * The claims of the specification *)

Section Claims.
Context `{O : Oracle}.
Implicit Types (g : Env) (layer : TPUEmbeddingLayer).

(** C1.  While [enabled] is false, [Enqueue] returns without calling the
    coordinator; [Dequeue] makes no call, changes nothing and returns the
    cached activations, which are empty in every state this file reaches;
    [ApplyGradients] returns the empty mapping, calls neither the
    coordinator nor the schedule and changes nothing. *)
Theorem disabled_manager_passes_through g batch gradients :
  enabled (manager g) = false →
  ((Enqueue batch g).1 = Ok tt ∧ calls (Enqueue batch g).2 = calls g)
  ∧ Dequeue g = (Ok (_activations (manager g)), g)
  ∧ (Reachable g → Dequeue g = (Ok ∅, g))
  ∧ ApplyGradients gradients g = (Ok ∅, g).
Proof.
  intros He. repeat split.
  - by rewrite Enqueue_disabled.
  - by rewrite Enqueue_disabled.
  - by apply Dequeue_disabled.
  - intros Hr. rewrite Dequeue_disabled by done.
    apply Reachable_well_formed in Hr. unfold well_formed in Hr.
    rewrite He in Hr. destruct Hr as [_ ->]. done.
  - by apply ApplyGradients_disabled.
Qed.

(** C2.  On an enabled manager, [Lookup] with a non-empty mapping of
    requested keys returns, without raising, the part of the cached
    activations at the keys that are both requested and cached: it is a
    submapping of the cache and its keys are the intersection. *)
Theorem Lookup_returns_cached_intersection g (ids : NestedMap Ids) :
  enabled (manager g) = true →
  ids ≠ ∅ →
  Lookup (Some ids) g
  = (Ok (filter (λ kv, kv.1 ∈ dom ids) (_activations (manager g))), g)
  ∧ dom (filter (λ kv, kv.1 ∈ dom ids) (_activations (manager g)))
    = dom ids ∩ dom (_activations (manager g))
  ∧ filter (λ kv, kv.1 ∈ dom ids) (_activations (manager g))
    ⊆ _activations (manager g).
Proof.
  intros He Hne. split; [by apply Lookup_slice|]. split.
  - apply filter_dom_keys.
  - apply map_filter_subseteq.
Qed.

(** C9.  [Lookup] with an empty mapping of requested keys returns the full
    cached activations, as [Lookup] with no argument does, whether or not
    the manager is enabled. *)
Theorem Lookup_empty_request_returns_all g :
  Lookup (Some ∅) g = (Ok (_activations (manager g)), g)
  ∧ Lookup (Some ∅) g = Lookup None g.
Proof.
  assert (Hf : NestedMap.truthy (Some (∅ : NestedMap Ids)) = false).
  { unfold NestedMap.truthy. by rewrite bool_decide_eq_true_2. }
  split.
  - by apply Lookup_falsy.
  - by rewrite !Lookup_falsy.
Qed.

(** C3.  On an enabled manager holding its coordinator and its schedule,
    [ApplyGradients] evaluates the schedule once, multiplies every gradient
    by that value, passes the scaled mapping to the coordinator's
    apply_gradients and returns exactly three metrics, each with weight
    1.0: the norm of the cached activations, the norm of the scaled
    gradients, and the multiplier itself. *)
Theorem ApplyGradients_scales_and_reports g gradients c s :
  enabled (manager g) = true →
  _tpu_embedding (manager g) = Some c →
  _gradient_multiplier_schedule (manager g) = Some s →
  let multiplier := Value_result s (calls g) in
  let scaled_grads :=
    NestedMap.Transform (λ t, tf_mul t multiplier) gradients in
  let report := metrics (_activations (manager g)) scaled_grads multiplier in
  ApplyGradients gradients g
  = (Ok report,
     {| manager := manager g;
        calls := calls g ++ [Value s; apply_gradients c scaled_grads] |})
  ∧ (∀ k, scaled_grads !! k = (λ t, tf_mul t multiplier) <$> gradients !! k)
  ∧ size report = 3
  ∧ report !! "tpu_embedding_activation_norm"
    = Some (tf_sqrt (SumSquared
                       (NestedMap.Flatten (_activations (manager g)))),
            tf_constant 1)
  ∧ report !! "tpu_embedding_grad_norm"
    = Some (tf_sqrt (SumSquared (NestedMap.Flatten scaled_grads)),
            tf_constant 1)
  ∧ report !! "tpu_embedding_gradient_multiplier"
    = Some (multiplier, tf_constant 1).
Proof.
  intros He Hc Hs multiplier scaled_grads report. split.
  { by apply ApplyGradients_enabled. }
  split.
  { intros k. unfold scaled_grads, NestedMap.Transform.
    apply lookup_fmap. }
  unfold report, metrics. split.
  { rewrite !map_size_insert_None, map_size_empty; by simplify_map_eq. }
  by simplify_map_eq.
Qed.

(** C4.  The [tpu_embedding] setter stores the reference when none is
    stored.  Once a reference is stored, whatever operations follow, every
    further attempt raises ValueError and the stored reference stays the
    same: it is set at most once. *)
Theorem coordinator_is_set_once g c :
  (_tpu_embedding (manager g) = None →
     set_tpu_embedding c g
     = (Ok tt, {| manager := with_tpu_embedding (Some c) (manager g);
                  calls := calls g |})
     ∧ ∀ ops c',
         set_tpu_embedding c' (run ops (set_tpu_embedding c g).2)
         = (Raise (ValueError AlreadySet),
            run ops (set_tpu_embedding c g).2)
         ∧ _tpu_embedding (manager (run ops (set_tpu_embedding c g).2))
           = Some c)
  ∧ (∀ c0 ops,
       _tpu_embedding (manager g) = Some c0 →
       set_tpu_embedding c (run ops g)
       = (Raise (ValueError AlreadySet), run ops g)
       ∧ _tpu_embedding (manager (run ops g)) = Some c0).
Proof.
  assert (Hset : ∀ g' c0 c' ops,
    _tpu_embedding (manager g') = Some c0 →
    set_tpu_embedding c' (run ops g')
    = (Raise (ValueError AlreadySet), run ops g')
    ∧ _tpu_embedding (manager (run ops g')) = Some c0).
  { intros g' c0 c' ops Hc0.
    pose proof (run_keeps_coordinator ops g' c0 Hc0) as Hrun.
    split; [|done].
    unfold set_tpu_embedding, mbind, M_bind, TPU_EMBEDDING_MANAGER, raise.
    rewrite Hrun. by rewrite bool_decide_eq_true_2. }
  split.
  - intros Hnone.
    assert (Hfirst : set_tpu_embedding c g
      = (Ok tt, {| manager := with_tpu_embedding (Some c) (manager g);
                   calls := calls g |})).
    { unfold set_tpu_embedding, mbind, M_bind, TPU_EMBEDDING_MANAGER,
        update.
      rewrite Hnone. by rewrite bool_decide_eq_false_2 by naive_solver. }
    split; [done|]. intros ops c'. apply Hset. by rewrite Hfirst.
  - intros c0 ops Hc0. by apply Hset.
Qed.

(** C5.  Whatever the state, enabled or not, and whether or not the
    coordinator call succeeds, the cache is empty right after [Enqueue];
    it stays empty through every operation other than [Dequeue], so any
    [Lookup] before the next [Dequeue] returns the empty mapping. *)
Theorem Enqueue_resets_cache g batch ops ids :
  forallb (λ op, negb (is_dequeue op)) ops = true →
  _activations (manager (Enqueue batch g).2) = ∅
  ∧ (Lookup ids (run ops (Enqueue batch g).2)).1 = Ok ∅.
Proof.
  intros Hops.
  assert (Hempty : _activations (manager (Enqueue batch g).2) = ∅)
    by by rewrite Enqueue_manager.
  split; [done|].
  apply Lookup_empty_cache. by apply run_keeps_empty_cache.
Qed.

(** C6.  On an enabled manager holding its coordinator, [Dequeue] calls
    the coordinator's dequeue, stores what it returns as the cache, has the
    gradient tape watch it and returns it; [Lookup] with no keys then
    returns that same mapping.  On a disabled manager [Dequeue] returns the
    cache as it is. *)
Theorem Dequeue_caches_activations g :
  (∀ c, enabled (manager g) = true →
        _tpu_embedding (manager g) = Some c →
        let activations := dequeue_result c (calls g) in
        let g' := {| manager := with_activations activations (manager g);
                     calls := calls g ++ [dequeue c; watch activations] |} in
        Dequeue g = (Ok activations, g')
        ∧ Lookup None g' = (Ok activations, g')
        ∧ Lookup (Some ∅) g' = (Ok activations, g'))
  ∧ (enabled (manager g) = false →
       Dequeue g = (Ok (_activations (manager g)), g)).
Proof.
  split.
  - intros c He Hc activations g'. split; [by apply Dequeue_enabled|].
    split.
    + by rewrite Lookup_falsy.
    + rewrite Lookup_falsy; [done|].
      unfold NestedMap.truthy. by rewrite bool_decide_eq_true_2.
  - apply Dequeue_disabled.
Qed.

(** C7, as amended.  In TPU training, on a manager that is not yet enabled
    and has no coordinator, a layer in which two distinct tables declare
    the same key raises ValueError; by then the coordinator has been built
    and stored, and the manager is enabled with its schedule and sequence
    features set. *)
Theorem duplicate_key_raises_after_building layer g k :
  declared_twice layer k →
  IsTpuTraining (params layer) = true →
  enabled (manager g) = false →
  _tpu_embedding (manager g) = None →
  _CreateLayerVariables layer g
  = (Raise (ValueError
              (KeyUsedByMultipleTables (count_feature_names layer))),
     {| manager := initialised layer g;
        calls := calls g ++ [init_call layer] |})
  ∧ coordinators_built (_CreateLayerVariables layer g).2
    = S (coordinators_built g)
  ∧ _tpu_embedding (manager (_CreateLayerVariables layer g).2)
    = Some (TPUEmbedding_new (calls g ++ [init_call layer])).
Proof.
  intros Hk Ht He Hc.
  rewrite CreateLayerVariables_first by done.
  rewrite (declared_twice_counted _ _ Hk). split; [done|]. split; [|done].
  unfold coordinators_built. simpl.
  rewrite List.filter_app, length_app. simpl. lia.
Qed.

(** C8, as amended.  When the ids mapping holds a key that no table
    declares, [EmbLookup] raises ValueError carrying the invalid keys (the
    requested keys no table declares, the offending key among them) and the
    valid keys, and leaves the state as it was.  The error is detected when
    the lookup is made: layer variable construction, which sees no ids,
    never raises it. *)
Theorem EmbLookup_rejects_undeclared_keys layer (ids_map : NestedMap Ids)
    g k :
  k ∈ dom ids_map →
  (∀ table, table ∈ tables layer → k ∉ input_keys table) →
  EmbLookup layer ids_map g
  = (Raise (ValueError (InvalidInputKeys (dom ids_map ∖ valid_keys layer)
                                         (valid_keys layer))), g)
  ∧ k ∈ dom ids_map ∖ valid_keys layer
  ∧ (∀ k', k' ∈ dom ids_map ∖ valid_keys layer
           ↔ k' ∈ dom ids_map
             ∧ ∀ table, table ∈ tables layer → k' ∉ input_keys table)
  ∧ ∀ g0 invalid_keys valid_keys,
      (_CreateLayerVariables layer g0).1
      ≠ Raise (ValueError (InvalidInputKeys invalid_keys valid_keys)).
Proof.
  intros Hk Hundeclared.
  assert (Hspec : ∀ k', k' ∈ dom ids_map ∖ valid_keys layer
           ↔ k' ∈ dom ids_map
             ∧ ∀ table, table ∈ tables layer → k' ∉ input_keys table).
  { intros k'. rewrite elem_of_difference, valid_keys_spec. naive_solver. }
  assert (Hin : k ∈ dom ids_map ∖ valid_keys layer) by by apply Hspec.
  split; [|split; [done|split; [done|]]].
  - unfold EmbLookup, _CheckIdsMap, NestedMap.Keys, mbind, M_bind, raise.
    rewrite bool_decide_eq_true_2; [done|]. set_solver.
  - intros g0 invalid_keys valid_keys Hraise.
    destruct (CreateLayerVariables_outcomes layer g0)
      as [[layer' Hok]|[Hset|Hdup]]; congruence.
Qed.

(** C10.  The manager's truth value is its [enabled] flag, and
    [_CreateLayerVariables] touches the singleton only while the flag is
    false: on an enabled manager it returns normally and leaves the whole
    state (coordinator, feature names, sequence features, schedule, call
    history) as it was. *)
Theorem second_layer_leaves_manager layer g :
  (∀ m : _TPUEmbeddingManager, __bool__ m = enabled m)
  ∧ (enabled (manager g) = true →
       _CreateLayerVariables layer g = (Ok layer, g))
  ∧ ((_CreateLayerVariables layer g).2 ≠ g → enabled (manager g) = false).
Proof.
  split; [done|]. split.
  - apply CreateLayerVariables_enabled.
  - intros Hchanged. destruct (enabled (manager g)) eqn:He; [|done].
    by rewrite CreateLayerVariables_enabled in Hchanged.
Qed.

End Claims.

(** * Further properties of the manager *)

Section ManagerProperties.
Context `{O : Oracle}.
Implicit Types (g : Env) (c : Coordinator) (s : Schedule).

Ltac step := unfold mbind, M_bind, mret, M_ret, raise, lift, update, call,
  history, TPU_EMBEDDING_MANAGER, tpu_embedding,
  gradient_multiplier_schedule; simpl.

(** X1.  [Lookup] never raises, makes no external call and changes
    nothing, whatever the state and the requested keys; what it returns is
    the cache, cut down to the requested keys when the request is non-empty
    and the manager enabled, and so always a part of the cache. *)
Theorem Lookup_never_raises g ids :
  Lookup ids g
  = (Ok (if NestedMap.truthy ids && enabled (manager g)
         then filter (λ kv, kv.1 ∈ from_option dom (∅ : gset string) ids)
                     (_activations (manager g))
         else _activations (manager g)), g)
  ∧ ∃ r, (Lookup ids g).1 = Ok r ∧ r ⊆ _activations (manager g).
Proof.
  assert (Heq : Lookup ids g
    = (Ok (if NestedMap.truthy ids && enabled (manager g)
           then filter (λ kv, kv.1 ∈ from_option dom (∅ : gset string) ids)
                       (_activations (manager g))
           else _activations (manager g)), g)).
  { destruct (NestedMap.truthy ids) eqn:Ht; simpl.
    - destruct ids as [ids|]; [|done]. simpl.
      destruct (enabled (manager g)) eqn:He.
      + apply Lookup_slice; [done|]. intros ->.
        unfold NestedMap.truthy in Ht.
        by rewrite bool_decide_eq_true_2 in Ht.
      + by apply Lookup_disabled.
    - by apply Lookup_falsy. }
  split; [done|]. rewrite Heq. eexists. split; [done|].
  destruct (_ && _); [apply map_filter_subseteq | done].
Qed.

(** X2.  On a manager that is enabled but holds no coordinator, [Enqueue]
    raises AttributeError after it has already emptied the cache, and
    [Dequeue] raises AttributeError with the state untouched. *)
Theorem enabled_without_coordinator_raises g batch :
  enabled (manager g) = true →
  _tpu_embedding (manager g) = None →
  Enqueue batch g
  = (Raise AttributeError,
     {| manager := with_activations ∅ (manager g); calls := calls g |})
  ∧ Dequeue g = (Raise AttributeError, g).
Proof.
  intros He Hc. split.
  - unfold Enqueue. step. rewrite He. step. by rewrite Hc.
  - unfold Dequeue. step. rewrite He. step. by rewrite Hc.
Qed.

(** X3.  [ApplyGradients] on an enabled manager checks its parts in order:
    without a schedule it raises AttributeError before any external call;
    with a schedule but no coordinator it raises AttributeError after the
    schedule has been evaluated, and nothing is forwarded.  In both cases
    the manager is unchanged. *)
Theorem ApplyGradients_missing_parts g gradients :
  enabled (manager g) = true →
  match _gradient_multiplier_schedule (manager g),
        _tpu_embedding (manager g) with
  | None, _ => ApplyGradients gradients g = (Raise AttributeError, g)
  | Some s, None =>
      ApplyGradients gradients g
      = (Raise AttributeError,
         {| manager := manager g; calls := calls g ++ [Value s] |})
  | Some s, Some c => (ApplyGradients gradients g).1 ≠ Raise AttributeError
  end.
Proof.
  intros He.
  destruct (_gradient_multiplier_schedule (manager g)) as [s|] eqn:Hs.
  - destruct (_tpu_embedding (manager g)) as [c|] eqn:Hc.
    + by rewrite (ApplyGradients_enabled _ _ c s).
    + unfold ApplyGradients. step. rewrite He. step. rewrite Hs. step.
      by rewrite Hc.
  - unfold ApplyGradients. step. rewrite He. step. by rewrite Hs.
Qed.

(** X4.  One training step on an initialised manager: [Enqueue] then
    [Dequeue] make exactly the calls enqueue, dequeue, watch, in that
    order; the cache becomes what the coordinator answered, whatever it
    held before; a following [Lookup] of a non-empty request returns that
    answer at the requested keys. *)
Theorem training_step g c batch (ids : NestedMap Ids) :
  enabled (manager g) = true →
  _tpu_embedding (manager g) = Some c →
  ids ≠ ∅ →
  let activations := dequeue_result c (calls g ++ [enqueue c batch]) in
  let g' := (Dequeue (Enqueue batch g).2).2 in
  calls g' = calls g ++ [enqueue c batch; dequeue c; watch activations]
  ∧ manager g' = with_activations activations (manager g)
  ∧ Lookup (Some ids) g'
    = (Ok (filter (λ kv, kv.1 ∈ dom ids) activations), g').
Proof.
  intros He Hc Hne activations g'.
  assert (Hg' : g' = {| manager := with_activations activations (manager g);
                        calls := calls g ++ [enqueue c batch; dequeue c;
                                             watch activations] |}).
  { unfold g'. rewrite (Enqueue_enabled _ _ c) by done. simpl.
    rewrite (Dequeue_enabled _ c) by done. simpl.
    by rewrite <-app_assoc. }
  rewrite Hg'. split; [done|]. split; [done|].
  by rewrite Lookup_slice.
Qed.

(** X5.  Each [Dequeue] replaces the cache wholesale: after two of them
    the cache, and so [Lookup], hold the second answer only, and the
    history shows two dequeue calls, each followed by its watch. *)
Theorem Dequeue_replaces_cache g c :
  enabled (manager g) = true →
  _tpu_embedding (manager g) = Some c →
  let first := dequeue_result c (calls g) in
  let second :=
    dequeue_result c (calls g ++ [dequeue c; watch first]) in
  let g' := (Dequeue (Dequeue g).2).2 in
  (Dequeue (Dequeue g).2).1 = Ok second
  ∧ g' = {| manager := with_activations second (manager g);
            calls := calls g ++ [dequeue c; watch first;
                                 dequeue c; watch second] |}
  ∧ Lookup None g' = (Ok second, g').
Proof.
  intros He Hc first second g'.
  assert (Hd : Dequeue (Dequeue g).2
    = (Ok second,
       {| manager := with_activations second (manager g);
          calls := calls g ++ [dequeue c; watch first;
                               dequeue c; watch second] |})).
  { rewrite (Dequeue_enabled g c) by done. simpl.
    rewrite (Dequeue_enabled _ c) by done. simpl.
    by rewrite <-app_assoc. }
  unfold g'. rewrite Hd. split; [done|]. split; [done|].
  by rewrite Lookup_falsy.
Qed.

(** X6.  No operation of this file turns [enabled] off again: once true
    it stays true through any sequence of the manager's and the layer's
    operations. *)
Theorem enabled_never_reverted ops g :
  forallb in_file ops = true →
  enabled (manager g) = true →
  enabled (manager (run ops g)) = true.
Proof.
  revert g. induction ops as [|op ops IH]; intros g Hops He; [done|].
  simpl in Hops. apply andb_true_iff in Hops as [Hop Hops].
  simpl. apply IH; [done|]. clear IH Hops.
  destruct op; simpl; try done.
  - by rewrite Enqueue_manager.
  - destruct (Dequeue_manager g) as [a ->]. done.
  - by rewrite Lookup_state.
  - by rewrite ApplyGradients_manager.
  - by rewrite CreateLayerVariables_enabled.
  - revert g He. apply (keeps_EmbLookup (λ m, enabled m = true)).
Qed.

(** X8.  [AddSummaryTensor] only accumulates: a run of calls appends the
    entries in call order, weights converted to tensors, keeps every
    earlier entry (also one of the same name), and touches neither the
    other fields of the manager nor the call history. *)
Theorem AddSummaryTensor_accumulates
    (entries : list (string * Tensor * Q)) g :
  _summary_tensors
    (manager (run ((λ e, OpAddSummaryTensor e.1.1 e.1.2 e.2) <$> entries) g))
  = _summary_tensors (manager g)
    ++ ((λ e, (e.1.1, e.1.2, tf_convert_to_tensor e.2)) <$> entries)
  ∧ with_summary_tensors []
      (manager (run ((λ e, OpAddSummaryTensor e.1.1 e.1.2 e.2)
                       <$> entries) g))
    = with_summary_tensors [] (manager g)
  ∧ calls (run ((λ e, OpAddSummaryTensor e.1.1 e.1.2 e.2) <$> entries) g)
    = calls g.
Proof.
  revert g. induction entries as [|[[name value] weight] entries IH];
    intros g.
  - simpl. by rewrite app_nil_r.
  - rewrite fmap_cons.
    change (run (?op :: ?ops) g) with (run ops (exec op g)).
    cbn beta iota delta [fst snd].
    destruct (IH (exec (OpAddSummaryTensor name value weight) g))
      as (Hs & Hm & Hc).
    rewrite Hs, Hm, Hc. simpl. by rewrite <-app_assoc.
Qed.

End ManagerProperties.

(** * Further properties of the layer *)

Section MoreLayerFacts.
Context `{O : Oracle}.
Implicit Types (g : Env) (layer : TPUEmbeddingLayer).

Lemma reads_only_ret {A} (a : A) : reads_only (mret a).
Proof. by intros g. Qed.

Lemma reads_only_raise {A} e : reads_only (raise e : M A).
Proof. by intros g. Qed.

Lemma reads_only_lift {A} (r : Res A) : reads_only (lift r).
Proof. by intros g. Qed.

Lemma reads_only_bind {X Y} (x : M X) (f : X → M Y) :
  reads_only x → (∀ a, reads_only (f a)) → reads_only (x ≫= f).
Proof.
  intros Hx Hf g. unfold mbind, M_bind.
  specialize (Hx g). destruct (x g) as [[a|e] g']; simpl in *; subst.
  - apply Hf.
  - done.
Qed.

Lemma reads_only_foldl {A T} (f : M A → T → M A) (l : list T) :
  (∀ acc t, reads_only acc → reads_only (f acc t)) →
  ∀ acc, reads_only acc → reads_only (foldl f acc l).
Proof.
  intros Hf. induction l as [|t l IH]; intros acc Hacc; simpl; [done|].
  apply IH. by apply Hf.
Qed.

(** [EmbLookup] changes nothing and calls nothing, on every path. *)
Lemma EmbLookup_state layer (ids_map : NestedMap Ids) g :
  (EmbLookup layer ids_map g).2 = g.
Proof.
  revert g. change (reads_only (EmbLookup layer ids_map)).
  unfold EmbLookup. apply reads_only_bind.
  { unfold _CheckIdsMap. destruct (bool_decide _);
      [apply reads_only_raise | apply reads_only_ret]. }
  intros _. destruct (IsTpuTraining (params layer)).
  - destruct (tpu_embedding_manager layer);
      [intros g; apply Lookup_state | apply reads_only_raise].
  - apply reads_only_foldl; [|apply reads_only_ret]. intros acc t Hacc.
    apply reads_only_bind; [done|]. intros r.
    apply reads_only_bind; [apply reads_only_lift|]. intros sl.
    apply reads_only_ret.
Qed.

Lemma CheckIdsMap_valid layer (ids_map : NestedMap Ids) g :
  dom ids_map ⊆ valid_keys layer →
  _CheckIdsMap layer ids_map g = (Ok tt, g).
Proof.
  intros Hsub. unfold _CheckIdsMap, NestedMap.Keys.
  rewrite bool_decide_eq_false_2; [done|]. intros Hne. apply Hne.
  set_solver.
Qed.

(** Past the key check, [EmbLookup] is its lookup proper. *)
Lemma EmbLookup_checked layer (ids_map : NestedMap Ids) g :
  dom ids_map ⊆ valid_keys layer →
  EmbLookup layer ids_map g
  = (if IsTpuTraining (params layer)
     then if tpu_embedding_manager layer
          then Lookup (Some ids_map)
          else raise AttributeError
     else foldl (λ (ret : M (NestedMap Tensor)) table,
                   ret ← ret;
                   slice ← lift (NestedMap.GetSlice ids_map
                             (list_to_set (input_keys table)
                                ∩ NestedMap.Keys ids_map));
                   mret (NestedMap.Update ret
                           (CpuEmbLookup table slice
                              (partition_strategy (params layer)))))
                (mret ∅) (tables layer)) g.
Proof.
  intros Hvalid. unfold EmbLookup.
  change ((_CheckIdsMap layer ids_map ≫= ?k) g)
    with (match _CheckIdsMap layer ids_map g with
          | (Ok a, g') => k a g'
          | (Raise e, g') => (Raise e, g')
          end).
  by rewrite CheckIdsMap_valid.
Qed.

Lemma elem_of_declared_keys layer k :
  k ∈ declared_keys layer
  ↔ ∃ table, table ∈ tables layer ∧ k ∈ input_keys table.
Proof.
  unfold declared_keys. induction (tables layer) as [|t ts IH]; csimpl.
  - rewrite elem_of_nil. split; [done|]. intros (t & Ht & _).
    by apply elem_of_nil in Ht.
  - rewrite elem_of_app, IH. split.
    + intros [Hk|(t' & Ht' & Hk)].
      * exists t. split; [by left|done].
      * exists t'. split; [by right|done].
    + intros (t' & Ht' & Hk). apply elem_of_cons in Ht' as [->|Ht'].
      * by left.
      * right. by exists t'.
Qed.

Lemma valid_keys_declared layer :
  valid_keys layer = list_to_set (declared_keys layer).
Proof.
  apply set_eq. intros k.
  by rewrite valid_keys_spec, elem_of_list_to_set, elem_of_declared_keys.
Qed.

Lemma Counter_update_dom (keys : list string) (c : gmap string nat) :
  dom (Counter_update c keys) = dom c ∪ list_to_set keys.
Proof.
  revert c. unfold Counter_update.
  induction keys as [|x keys IH]; intros c; simpl.
  - set_solver.
  - rewrite IH, dom_insert_L. set_solver.
Qed.

Lemma count_feature_names_dom layer :
  dom (count_feature_names layer) = valid_keys layer.
Proof.
  rewrite valid_keys_declared. unfold count_feature_names, declared_keys.
  assert (Hgen : ∀ (ts : list TPUEmbeddingTable) (c : gmap string nat),
    dom (foldl (λ c table, Counter_update c (input_keys table)) c ts)
    = dom c ∪ list_to_set (concat (input_keys <$> ts))).
  { induction ts as [|t ts IH]; intros c; csimpl.
    - set_solver.
    - rewrite IH, Counter_update_dom, list_to_set_app_L. set_solver. }
  rewrite Hgen, dom_empty_L. set_solver.
Qed.

Lemma occurrences_cons k x (l : list string) :
  occurrences k (x :: l) = (if decide (x = k) then 1 else 0) + occurrences k l.
Proof.
  unfold occurrences. destruct (decide (x = k)) as [->|Hne].
  - by rewrite filter_cons_True.
  - by rewrite filter_cons_False.
Qed.

Lemma occurrences_not_elem_of k (l : list string) :
  k ∉ l → occurrences k l = 0.
Proof.
  induction l as [|x l IH]; [done|]. rewrite not_elem_of_cons.
  intros [Hne Hk]. rewrite occurrences_cons, IH by done.
  by rewrite decide_False.
Qed.

(** A list of keys is free of repetitions exactly when no key occurs
    twice. *)
Lemma NoDup_occurrences (l : list string) :
  NoDup l ↔ ∀ k, occurrences k l ≤ 1.
Proof.
  induction l as [|x l IH].
  - split; [intros _ k; unfold occurrences; simpl; lia | constructor].
  - rewrite NoDup_cons, IH. split.
    + intros [Hx Hl] k. rewrite occurrences_cons.
      destruct (decide (x = k)) as [->|]; [|apply Hl].
      rewrite occurrences_not_elem_of by done. lia.
    + intros Hall. split.
      * intros Hx. pose proof (occurrences_elem_of _ _ Hx).
        specialize (Hall x). rewrite occurrences_cons in Hall.
        rewrite decide_True in Hall by done. lia.
      * intros k. specialize (Hall k). rewrite occurrences_cons in Hall.
        lia.
Qed.

Lemma any_above_one_false (c : gmap string nat) :
  any_above_one c = false ↔ ∀ k, default 0 (c !! k) ≤ 1.
Proof.
  split.
  - intros Hf k. destruct (c !! k) as [v|] eqn:Hv; simpl; [|lia].
    destruct (decide (v ≤ 1)) as [|Hgt]; [done|].
    rewrite (any_above_one_true c k) in Hf; [done|]. rewrite Hv. simpl. lia.
  - intros Hall. unfold any_above_one.
    apply not_true_is_false. intros Hex.
    apply existsb_exists in Hex as ([k v] & Hin & Hv).
    apply list_elem_of_In, elem_of_map_to_list in Hin.
    specialize (Hall k). rewrite Hin in Hall. simpl in *.
    apply Nat.ltb_lt in Hv. lia.
Qed.

(** The duplicate test fires exactly when the declared keys repeat. *)
Lemma any_above_one_NoDup layer :
  any_above_one (count_feature_names layer)
  = negb (bool_decide (NoDup (declared_keys layer))).
Proof.
  destruct (any_above_one (count_feature_names layer)) eqn:Ha.
  - rewrite bool_decide_eq_false_2; [done|]. intros Hnd.
    pose proof (proj1 (NoDup_occurrences _) Hnd) as Hocc. clear Hnd.
    assert (Hf : any_above_one (count_feature_names layer) = false).
    { apply any_above_one_false. intros k.
      rewrite count_feature_names_lookup. apply Hocc. }
    congruence.
  - rewrite bool_decide_eq_true_2; [done|].
    apply (proj2 (NoDup_occurrences _)).
    intros k. unfold declared_keys.
    rewrite <-count_feature_names_lookup.
    by apply any_above_one_false.
Qed.

(** What the two loops of [_CreateLayerVariables] build. *)
Lemma declare_feature_eq (p : Params) (table : TPUEmbeddingTable)
    (acc : NestedMap (FeatureConfig TableConfig) * list string) feature :
  declare_feature p table acc feature
  = (<[feature := feature_config_for p table]> acc.1,
     acc.2 ++ (if is_sequence_table table then [feature] else [])).
Proof.
  unfold declare_feature, feature_config_for, is_sequence_table,
    NestedMap.Set_.
  destruct (0 <? max_sequence_length table)%Z; [done|].
  by rewrite app_nil_r.
Qed.

Lemma declare_keys_spec (p : Params) (table : TPUEmbeddingTable)
    (keys : list string)
    (acc : NestedMap (FeatureConfig TableConfig) * list string) :
  (foldl (declare_feature p table) acc keys).2
  = acc.2 ++ (if is_sequence_table table then keys else [])
  ∧ dom (foldl (declare_feature p table) acc keys).1
    = dom acc.1 ∪ list_to_set keys
  ∧ ∀ k cfg, (foldl (declare_feature p table) acc keys).1 !! k = Some cfg →
      acc.1 !! k = Some cfg
      ∨ (k ∈ keys ∧ cfg = feature_config_for p table).
Proof.
  revert acc. induction keys as [|x keys IH]; intros acc; simpl.
  - split; [by destruct (is_sequence_table table); rewrite app_nil_r|].
    split; [set_solver|]. intros k cfg Hk. by left.
  - destruct (IH (declare_feature p table acc x)) as (Hs & Hd & Hc).
    rewrite declare_feature_eq in Hs, Hd, Hc. simpl in Hs, Hd, Hc.
    rewrite declare_feature_eq. split; [|split].
    + rewrite Hs, <-app_assoc.
      by destruct (is_sequence_table table).
    + rewrite Hd, dom_insert_L. set_solver.
    + intros k cfg Hk. destruct (Hc k cfg Hk) as [Hacc|[Hin ->]].
      * destruct (decide (x = k)) as [->|Hne].
        -- rewrite lookup_insert_eq in Hacc. right.
           split; [by left | congruence].
        -- rewrite lookup_insert_ne in Hacc by done. by left.
      * right. split; [by right | done].
Qed.

Lemma declare_tables_spec (p : Params) (ts : list TPUEmbeddingTable)
    (acc : NestedMap (FeatureConfig TableConfig) * list string) :
  let r := foldl (λ acc table,
                    foldl (declare_feature p table) acc (input_keys table))
                 acc ts in
  r.2 = acc.2 ++ concat (input_keys <$> List.filter is_sequence_table ts)
  ∧ dom r.1 = dom acc.1 ∪ list_to_set (concat (input_keys <$> ts))
  ∧ ∀ k cfg, r.1 !! k = Some cfg →
      acc.1 !! k = Some cfg
      ∨ ∃ table, table ∈ ts ∧ k ∈ input_keys table
                 ∧ cfg = feature_config_for p table.
Proof.
  revert acc. induction ts as [|t ts IH]; intros acc; simpl.
  - split; [by rewrite app_nil_r|]. split; [set_solver|].
    intros k cfg Hk. by left.
  - destruct (IH (foldl (declare_feature p t) acc (input_keys t)))
      as (Hs & Hd & Hc).
    destruct (declare_keys_spec p t (input_keys t) acc) as (Hs1 & Hd1 & Hc1).
    split; [|split].
    + rewrite Hs, Hs1, <-app_assoc. f_equal.
      by destruct (is_sequence_table t).
    + rewrite Hd, Hd1. csimpl. rewrite list_to_set_app_L. set_solver.
    + intros k cfg Hk. destruct (Hc k cfg Hk) as [Hk1|(t' & Ht' & Hin & ->)].
      * destruct (Hc1 k cfg Hk1) as [?|[Hin ->]]; [by left|].
        right. exists t. split; [by left|done].
      * right. exists t'. split; [by right|done].
Qed.

Lemma declare_features_spec layer :
  (declare_features layer).2 = sequence_keys layer
  ∧ dom (declare_features layer).1 = valid_keys layer
  ∧ ∀ k cfg, (declare_features layer).1 !! k = Some cfg →
      ∃ table, table ∈ tables layer ∧ k ∈ input_keys table
               ∧ cfg = feature_config_for (params layer) table.
Proof.
  destruct (declare_tables_spec (params layer) (tables layer) (∅, []))
    as (Hs & Hd & Hc).
  split; [exact Hs|]. split.
  - rewrite valid_keys_declared. unfold declare_features, declared_keys.
    simpl in Hd. rewrite Hd, dom_empty_L. set_solver.
  - intros k cfg Hk. by destruct (Hc k cfg Hk) as [Hempty|?].
Qed.

Lemma sequence_keys_declared layer k :
  k ∈ sequence_keys layer → k ∈ declared_keys layer.
Proof.
  unfold sequence_keys, declared_keys.
  induction (tables layer) as [|t ts IH]; [done|]. csimpl.
  destruct (is_sequence_table t); csimpl; rewrite ?elem_of_app;
    naive_solver.
Qed.

(** The CPU loop of [EmbLookup]. *)
Lemma CpuEmbLookup_fmap (table : TPUEmbeddingTable)
    (ids_map : NestedMap Ids) ps :
  CpuEmbLookup table ids_map ps = cpu_activation table ps <$> ids_map.
Proof.
  unfold CpuEmbLookup, cpu_activation, is_sequence_table,
    _SequenceEmbLookup, NestedMap.Transform.
  by destruct (0 <? max_sequence_length table)%Z.
Qed.

Lemma cpu_slice (ids_map : NestedMap Ids) (keys : list string) :
  NestedMap.GetSlice ids_map (list_to_set keys ∩ NestedMap.Keys ids_map)
  = Ok (filter (λ kv, kv.1 ∈ keys) ids_map).
Proof.
  unfold NestedMap.Keys. rewrite GetSlice_present by set_solver.
  f_equal. apply map_filter_ext. intros i x Hx. simpl.
  rewrite elem_of_intersection, elem_of_list_to_set, elem_of_dom.
  naive_solver.
Qed.

Lemma cpu_fold_run (p : Params) (ids_map : NestedMap Ids)
    (ts : list TPUEmbeddingTable) (acc : M (NestedMap Tensor)) a g :
  acc g = (Ok a, g) →
  foldl (λ (ret : M (NestedMap Tensor)) table,
           ret ← ret;
           slice ← lift (NestedMap.GetSlice ids_map
                     (list_to_set (input_keys table)
                        ∩ NestedMap.Keys ids_map));
           mret (NestedMap.Update ret
                   (CpuEmbLookup table slice (partition_strategy p))))
        acc ts g
  = (Ok (foldl (cpu_step p ids_map) a ts), g).
Proof.
  revert acc a. induction ts as [|t ts IH]; intros acc a Hacc; simpl.
  - done.
  - apply IH. unfold mbind, M_bind, lift, mret, M_ret. rewrite Hacc.
    rewrite cpu_slice. by rewrite CpuEmbLookup_fmap.
Qed.

Lemma cpu_step_lookup (p : Params) (ids_map : NestedMap Ids)
    (a : NestedMap Tensor) (t : TPUEmbeddingTable) k :
  cpu_step p ids_map a t !! k
  = match ids_map !! k with
    | Some v => if decide (k ∈ input_keys t)
                then Some (cpu_activation t (partition_strategy p) v)
                else a !! k
    | None => a !! k
    end.
Proof.
  unfold cpu_step, NestedMap.Update. rewrite lookup_union, lookup_fmap.
  destruct (ids_map !! k) as [v|] eqn:Hv.
  - destruct (decide (k ∈ input_keys t)) as [Hin|Hnin].
    + rewrite (map_lookup_filter_Some_2 _ _ k v) by done. simpl.
      by destruct (a !! k).
    + rewrite (proj2 (map_lookup_filter_None _ _ k)).
      * simpl. by destruct (a !! k).
      * right. intros x _ Hk. by apply Hnin.
  - rewrite (proj2 (map_lookup_filter_None _ _ k)) by by left.
    simpl. by destruct (a !! k).
Qed.

Lemma cpu_fold_None (p : Params) (ids_map : NestedMap Ids)
    (ts : list TPUEmbeddingTable) (a : NestedMap Tensor) k :
  foldl (cpu_step p ids_map) a ts !! k = None
  ↔ a !! k = None
    ∧ (ids_map !! k = None ∨ ∀ t, t ∈ ts → k ∉ input_keys t).
Proof.
  revert a. induction ts as [|t ts IH]; intros a; simpl.
  - split; [|naive_solver]. intros Ha. split; [done|]. right.
    intros t Ht. by apply elem_of_nil in Ht.
  - rewrite IH, cpu_step_lookup.
    destruct (ids_map !! k) as [v|] eqn:Hv; [|naive_solver].
    destruct (decide (k ∈ input_keys t)) as [Hin|Hnin].
    + split; [naive_solver|]. intros [_ [?|Hall]]; [done|].
      exfalso. apply (Hall t); [by left|done].
    + split.
      * intros [Ha [?|Hall]]; [done|]. split; [done|]. right.
        intros t' Ht'. apply elem_of_cons in Ht' as [->|Ht']; auto.
      * intros [Ha [?|Hall]]; [done|]. split; [done|]. right.
        intros t' Ht'. apply Hall. by right.
Qed.

Lemma cpu_fold_Some (p : Params) (ids_map : NestedMap Ids)
    (ts : list TPUEmbeddingTable) (a : NestedMap Tensor) k x :
  foldl (cpu_step p ids_map) a ts !! k = Some x →
  a !! k = Some x
  ∨ ∃ v t, ids_map !! k = Some v ∧ t ∈ ts ∧ k ∈ input_keys t
           ∧ x = cpu_activation t (partition_strategy p) v.
Proof.
  revert a. induction ts as [|t ts IH]; intros a; simpl; [by left|].
  intros Hx. destruct (IH _ Hx) as [Hstep|(v & t' & Hv & Ht' & Hk & ->)].
  - rewrite cpu_step_lookup in Hstep.
    destruct (ids_map !! k) as [v|] eqn:Hv; [|by left].
    destruct (decide (k ∈ input_keys t)) as [Hin|Hnin]; [|by left].
    right. exists v, t. split; [done|]. split; [by left|].
    split; [done | congruence].
  - right. exists v, t'. split; [done|]. split; [by right|done].
Qed.

Lemma string_length_app (s t : string) :
  String.length (s +:+ t) = String.length s + String.length t.
Proof.
  induction s as [|a s IH]; [done|].
  change (String a s +:+ t) with (String a (s +:+ t)). simpl.
  by rewrite IH.
Qed.

Lemma string_app_inj_r (t s1 s2 : string) :
  s1 +:+ t = s2 +:+ t → s1 = s2.
Proof.
  revert s2. induction s1 as [|a s1 IH]; intros [|b s2] Heq.
  - done.
  - apply (f_equal String.length) in Heq.
    change ("" +:+ t) with t in Heq.
    rewrite string_length_app in Heq. simpl in Heq. lia.
  - apply (f_equal String.length) in Heq.
    change ("" +:+ t) with t in Heq.
    rewrite string_length_app in Heq. simpl in Heq. lia.
  - change (String a (s1 +:+ t) = String b (s2 +:+ t)) in Heq.
    injection Heq as -> Heq. f_equal. by apply IH.
Qed.

Lemma LearningRateFn_once name (s : Schedule) rate g :
  _LearningRateFn name s rate g
  = (Ok (tf_mul (Value_result s (calls g)) (tf_convert_to_tensor rate)),
     {| manager :=
          with_summary_tensors
            (_summary_tensors (manager g)
               ++ [("tpu_embedding_lr/" +:+ name,
                    tf_mul (Value_result s (calls g))
                           (tf_convert_to_tensor rate),
                    tf_convert_to_tensor 1)])
            (manager g);
        calls := calls g ++ [Value s] |}).
Proof. done. Qed.

End MoreLayerFacts.

Section LayerProperties.
Context `{O : Oracle}.
Implicit Types (g : Env) (layer : TPUEmbeddingLayer).

Lemma Reached_well_formed g : Reached g → well_formed (manager g).
Proof.
  induction 1 as [|g op _ IH Hop|g name s rate _ IH].
  - unfold well_formed. by simpl.
  - by apply exec_well_formed.
  - by rewrite LearningRateFn_once.
Qed.

Lemma only_Values_build_nothing (l : list Call) :
  forallb is_Value l = true → List.filter is_init l = [].
Proof.
  induction l as [|c l IH]; [done|]. simpl.
  intros [Hc Hl]%andb_true_iff. destruct c; try done; simpl; auto.
Qed.

(** X7.  In every state the file reaches from a fresh process, through the
    manager's and the layer's operations and the tables' learning-rate
    functions: while the manager is disabled the call history holds
    nothing but schedule evaluations (no coordinator has been built or
    called, no tape asked to watch) and the manager is as [__init__] left
    it, summary entries aside; once it is enabled, exactly one coordinator
    has been built. *)
Theorem Reached_singleton_discipline g :
  Reached g →
  if enabled (manager g)
  then coordinators_built g = 1
  else forallb is_Value (calls g) = true
       ∧ with_summary_tensors [] (manager g) = __init__.
Proof.
  induction 1 as [|g op Hr IH Hop|g name s rate Hr IH]; [done| |].
  2: { rewrite LearningRateFn_once. simpl.
       destruct (enabled (manager g)).
       - unfold coordinators_built in *. simpl.
         rewrite List.filter_app, length_app. simpl. lia.
       - destruct IH as [Hcalls Hm]. split; [|done].
         rewrite forallb_app, Hcalls. done. }
  pose proof (Reached_well_formed _ Hr) as Hwf. unfold well_formed in Hwf.
  assert (Hcache : ∀ m : _TPUEmbeddingManager,
    with_summary_tensors [] m = __init__ →
    with_summary_tensors [] (with_activations ∅ m) = __init__).
  { intros [e c f s l q a].
    unfold with_summary_tensors, with_activations, __init__. simpl.
    intros Hm. injection Hm as -> -> -> -> -> ->. done. }
  destruct op; try discriminate Hop; simpl.
  - destruct (enabled (manager g)) eqn:He.
    + destruct Hwf as [[c Hc] _].
      rewrite (Enqueue_enabled _ _ c) by done. simpl. rewrite He.
      unfold coordinators_built in *. simpl.
      rewrite List.filter_app, length_app. simpl. lia.
    + rewrite Enqueue_disabled by done. simpl. rewrite He.
      destruct IH as [Hcalls Hm]. split; [done|]. by apply Hcache.
  - destruct (enabled (manager g)) eqn:He.
    + destruct Hwf as [[c Hc] _].
      rewrite (Dequeue_enabled _ c) by done. simpl. rewrite He.
      unfold coordinators_built in *. simpl.
      rewrite List.filter_app, length_app. simpl. lia.
    + rewrite Dequeue_disabled by done. simpl. by rewrite He.
  - by rewrite Lookup_state.
  - destruct (enabled (manager g)) eqn:He.
    + destruct Hwf as [[c Hc] [s Hs]].
      rewrite (ApplyGradients_enabled _ _ c s) by done. simpl. rewrite He.
      unfold coordinators_built in *. simpl.
      rewrite List.filter_app, length_app. simpl. lia.
    + rewrite ApplyGradients_disabled by done. simpl. by rewrite He.
  - destruct (enabled (manager g)) eqn:He; exact IH.
  - destruct (enabled (manager g)) eqn:He.
    + rewrite CreateLayerVariables_enabled by done. simpl. by rewrite He.
    + destruct (IsTpuTraining (params layer)) eqn:Ht.
      * destruct Hwf as [Hc _]. destruct IH as [Hcalls _].
        rewrite CreateLayerVariables_first by done.
        destruct (any_above_one _); simpl;
          unfold coordinators_built; simpl;
          rewrite List.filter_app, (only_Values_build_nothing _ Hcalls);
          done.
      * rewrite CreateLayerVariables_not_tpu_training by done. simpl.
        by rewrite He.
  - by rewrite EmbLookup_state.
Qed.

(** X9.  A first construction in TPU training succeeds exactly when the
    keys declared by the tables, taken together, are free of repetition: a
    key repeated inside one table raises the same ValueError as a key
    shared by two tables.  The error carries, for every key, the number of
    times it is declared. *)
Theorem first_construction_checks_keys layer g :
  IsTpuTraining (params layer) = true →
  enabled (manager g) = false →
  _tpu_embedding (manager g) = None →
  (_CreateLayerVariables layer g).1
  = (if bool_decide (NoDup (declared_keys layer))
     then Ok (with_tpu_embedding_manager true layer)
     else Raise (ValueError
                   (KeyUsedByMultipleTables (count_feature_names layer))))
  ∧ ∀ k, default 0 (count_feature_names layer !! k)
         = occurrences k (declared_keys layer).
Proof.
  intros Ht He Hc. split.
  - rewrite CreateLayerVariables_first by done.
    rewrite any_above_one_NoDup.
    by destruct (bool_decide (NoDup (declared_keys layer))).
  - intros k. apply count_feature_names_lookup.
Qed.

(** X10.  After a successful first construction the manager's feature
    names are exactly the keys [EmbLookup] accepts, its sequence features
    are the keys of the tables with a positive max_sequence_length and lie
    among the feature names, and the coordinator was built from a feature
    configuration over exactly those keys, each entry being that of a
    table declaring the key. *)
Theorem construction_publishes_keys layer g :
  IsTpuTraining (params layer) = true →
  enabled (manager g) = false →
  _tpu_embedding (manager g) = None →
  NoDup (declared_keys layer) →
  let g' := (_CreateLayerVariables layer g).2 in
  _feature_names (manager g') = valid_keys layer
  ∧ _sequence_features (manager g') = list_to_set (sequence_keys layer)
  ∧ _sequence_features (manager g') ⊆ _feature_names (manager g')
  ∧ calls g' = calls g ++ [init_call layer]
  ∧ dom (declare_features layer).1 = valid_keys layer
  ∧ ∀ k cfg, (declare_features layer).1 !! k = Some cfg →
      ∃ table, table ∈ tables layer ∧ k ∈ input_keys table
               ∧ cfg = feature_config_for (params layer) table.
Proof.
  intros Ht He Hc Hnd g'.
  destruct (declare_features_spec layer) as (Hseq & Hdom & Hcfg).
  assert (Hg' : g' = {| manager := with_feature_names
                                     (dom (count_feature_names layer))
                                     (initialised layer g);
                        calls := calls g ++ [init_call layer] |}).
  { unfold g'. rewrite CreateLayerVariables_first by done.
    rewrite any_above_one_NoDup.
    by rewrite bool_decide_eq_true_2. }
  rewrite Hg'. simpl. rewrite Hseq, count_feature_names_dom.
  split; [done|]. split; [done|]. split; [|done].
  rewrite valid_keys_declared. intros k.
  rewrite !elem_of_list_to_set. apply sequence_keys_declared.
Qed.

(** X11.  A layer whose variables are constructed once the manager is
    enabled (a second layer, or a retry after a failed construction)
    never receives the manager: construction returns the layer unchanged,
    and its [EmbLookup] in TPU training raises AttributeError even for
    keys its tables declare. *)
Theorem late_layer_cannot_lookup layer g (ids_map : NestedMap Ids) g' :
  enabled (manager g) = true →
  tpu_embedding_manager layer = false →
  IsTpuTraining (params layer) = true →
  dom ids_map ⊆ valid_keys layer →
  _CreateLayerVariables layer g = (Ok layer, g)
  ∧ EmbLookup layer ids_map g' = (Raise AttributeError, g').
Proof.
  intros He Hm Ht Hvalid. split; [by apply CreateLayerVariables_enabled|].
  unfold EmbLookup, mbind, M_bind.
  rewrite CheckIdsMap_valid by done. by rewrite Ht, Hm.
Qed.

(** X12.  End to end on TPU: a first construction with unrepeated keys,
    then [Enqueue], [Dequeue] and the constructed layer's [EmbLookup] of a
    non-empty request over declared keys return what the coordinator
    answered to that dequeue, at the requested keys. *)
Theorem construct_then_lookup layer g batch (ids_map : NestedMap Ids) :
  IsTpuTraining (params layer) = true →
  enabled (manager g) = false →
  _tpu_embedding (manager g) = None →
  NoDup (declared_keys layer) →
  ids_map ≠ ∅ →
  dom ids_map ⊆ valid_keys layer →
  let c := TPUEmbedding_new (calls g ++ [init_call layer]) in
  let activations :=
    dequeue_result c (calls g ++ [init_call layer; enqueue c batch]) in
  let layer' := with_tpu_embedding_manager true layer in
  let g' := (Dequeue (Enqueue batch (_CreateLayerVariables layer g).2).2).2 in
  (_CreateLayerVariables layer g).1 = Ok layer'
  ∧ (EmbLookup layer' ids_map g').1
    = Ok (filter (λ kv, kv.1 ∈ dom ids_map) activations)
  ∧ calls g'
    = calls g ++ [init_call layer; enqueue c batch; dequeue c;
                  watch activations].
Proof.
  intros Ht He Hc Hnd Hne Hvalid c activations layer' g'. unfold g'.
  rewrite CreateLayerVariables_first by done.
  rewrite any_above_one_NoDup. rewrite bool_decide_eq_true_2 by done.
  cbn [negb fst snd]. split; [done|].
  rewrite (Enqueue_enabled _ _ c) by done. cbn [snd].
  rewrite (Dequeue_enabled _ c) by done. cbn [snd calls].
  rewrite <-!app_assoc. simpl app. split; [|done].
  rewrite EmbLookup_checked by done.
  unfold layer'. cbn [params with_tpu_embedding_manager
                      tpu_embedding_manager].
  rewrite Ht. by rewrite Lookup_slice.
Qed.

(** X13.  [EmbLookup] with an empty ids mapping passes the key check; in
    TPU training it then returns the whole cache (the manager's [Lookup]
    treats the empty request as none) or raises AttributeError when the
    layer holds no manager, while outside TPU training it returns the
    empty mapping. *)
Theorem EmbLookup_empty_request layer g :
  EmbLookup layer ∅ g
  = if IsTpuTraining (params layer)
    then if tpu_embedding_manager layer
         then (Ok (_activations (manager g)), g)
         else (Raise AttributeError, g)
    else (Ok ∅, g).
Proof.
  rewrite EmbLookup_checked by (rewrite dom_empty_L; set_solver).
  destruct (IsTpuTraining (params layer)).
  - destruct (tpu_embedding_manager layer); [|done].
    apply Lookup_falsy. unfold NestedMap.truthy.
    by rewrite bool_decide_eq_true_2.
  - rewrite (cpu_fold_run _ _ _ _ ∅) by done. do 2 f_equal.
    apply map_eq. intros k. rewrite lookup_empty.
    apply cpu_fold_None. rewrite !lookup_empty. auto.
Qed.

(** X14.  Outside TPU training, [EmbLookup] of declared keys returns,
    without raising, touching the state or calling the coordinator, one
    activation for each requested key and nothing else; the activation of
    a key is computed from its ids by a table that declares it, as a
    sequence lookup when that table has a positive max_sequence_length and
    as a combiner lookup otherwise. *)
Theorem EmbLookup_on_cpu layer g (ids_map : NestedMap Ids) :
  IsTpuTraining (params layer) = false →
  dom ids_map ⊆ valid_keys layer →
  ∃ r, EmbLookup layer ids_map g = (Ok r, g)
    ∧ dom r = dom ids_map
    ∧ ∀ k ids, ids_map !! k = Some ids →
        ∃ table, table ∈ tables layer ∧ k ∈ input_keys table
          ∧ r !! k = Some (cpu_activation table
                             (partition_strategy (params layer)) ids).
Proof.
  intros Ht Hvalid.
  exists (foldl (cpu_step (params layer) ids_map) ∅ (tables layer)).
  assert (Hnone : ∀ k,
    foldl (cpu_step (params layer) ids_map) ∅ (tables layer) !! k = None
    ↔ ids_map !! k = None).
  { intros k. rewrite cpu_fold_None, lookup_empty. split.
    - intros [_ [?|Hall]]; [done|].
      destruct (ids_map !! k) as [v|] eqn:Hv; [|done]. exfalso.
      assert (Hk : k ∈ valid_keys layer).
      { apply Hvalid, elem_of_dom. by exists v. }
      apply valid_keys_spec in Hk as (t & Hin & Hk). by apply (Hall t).
    - auto. }
  split; [|split].
  - rewrite EmbLookup_checked by done. rewrite Ht.
    by apply cpu_fold_run.
  - apply set_eq. intros k. rewrite !elem_of_dom, <-!not_eq_None_Some.
    by rewrite Hnone.
  - intros k ids Hk.
    destruct (foldl (cpu_step (params layer) ids_map) ∅ (tables layer) !! k)
      as [x|] eqn:Hx.
    + apply cpu_fold_Some in Hx as [Hx|(v & t & Hv & Hin & Hkt & ->)].
      * by rewrite lookup_empty in Hx.
      * exists t. split; [done|]. split; [done|]. congruence.
    + apply Hnone in Hx. congruence.
Qed.

(** X15.  Every evaluation of a table's learning rate calls the schedule
    once and appends one summary entry named after the table, with weight
    1.0: after [n] evaluations the summary list is [n] entries longer,
    earlier entries kept, nothing else in the manager changed, whether or
    not the manager is enabled.  Each evaluation returns the schedule's
    value times the learning rate. *)
Theorem learning_rate_summaries_accumulate name (s : Schedule) rate n g :
  ∃ added,
    _summary_tensors (manager (evaluate_learning_rate name s rate n g))
    = _summary_tensors (manager g) ++ added
    ∧ length added = n
    ∧ Forall (λ e, e.1.1 = "tpu_embedding_lr/" +:+ name
                   ∧ e.2 = tf_convert_to_tensor 1) added
    ∧ calls (evaluate_learning_rate name s rate n g)
      = calls g ++ replicate n (Value s)
    ∧ with_summary_tensors []
        (manager (evaluate_learning_rate name s rate n g))
      = with_summary_tensors [] (manager g)
    ∧ (_LearningRateFn name s rate
         (evaluate_learning_rate name s rate n g)).1
      = Ok (tf_mul (Value_result s (calls g ++ replicate n (Value s)))
                   (tf_convert_to_tensor rate)).
Proof.
  induction n as [|n (added & Hs & Hl & Hf & Hc & Hm & _)].
  - exists []. simpl. rewrite !app_nil_r. repeat split; done.
  - change (evaluate_learning_rate name s rate (S n) g)
      with (_LearningRateFn name s rate
              (evaluate_learning_rate name s rate n g)).2.
    rewrite !LearningRateFn_once. simpl. rewrite Hs, Hc.
    eexists (added ++ [_]). rewrite <-!app_assoc.
    split; [done|]. split; [rewrite length_app; simpl; lia|].
    split; [apply Forall_app; split; [done|]; by repeat constructor|].
    assert (Hrep : replicate n (Value s) ++ [Value s]
                   = Value s :: replicate n (Value s)).
    { by rewrite <-replicate_S_end. }
    rewrite Hrep. split; [done|]. split; [|done].
    rewrite <-Hm. done.
Qed.

(** X18.  A first construction on a disabled manager whose coordinator was
    already stored from outside builds a coordinator all the same, fails in
    the setter with 'TPUEmbedding has already been set', and leaves the
    manager enabled with the old coordinator and without this layer's
    schedule, sequence features or feature names. *)
Theorem construction_with_stored_coordinator layer g c0 :
  IsTpuTraining (params layer) = true →
  enabled (manager g) = false →
  _tpu_embedding (manager g) = Some c0 →
  _CreateLayerVariables layer g
  = (Raise (ValueError AlreadySet),
     {| manager := with_enabled true (manager g);
        calls := calls g ++ [init_call layer] |}).
Proof.
  intros Ht He Hc. unfold _CreateLayerVariables, init_call.
  rewrite Ht. simpl.
  destruct (declare_features layer) as [feature_config sequence_features].
  unfold mbind, M_bind, TPU_EMBEDDING_MANAGER, __bool__, update, history,
    call, set_tpu_embedding, raise. simpl.
  rewrite He. simpl. unfold mbind, M_bind, TPU_EMBEDDING_MANAGER. simpl.
  rewrite Hc. by rewrite bool_decide_eq_true_2.
Qed.

End LayerProperties.

(** * Device placement *)

(** X16.  [GetDeviceName] returns no device exactly for an inference
    table, also under evaluation; it raises NotImplementedError exactly
    for a table under evaluation that is not an inference table; otherwise
    it names the CPU of the host's task on the worker. *)
Theorem GetDeviceName_cases (self : Placement) (host_id : Z) :
  (GetDeviceName self host_id = Returns None ↔ is_inference self = true)
  ∧ ((∃ msg, GetDeviceName self host_id = NotImplementedError msg)
     ↔ is_inference self = false ∧ do_eval self = true)
  ∧ ((∃ d, GetDeviceName self host_id = Returns (Some d))
     ↔ is_inference self = false ∧ do_eval self = false).
Proof.
  unfold GetDeviceName.
  destruct (is_inference self), (do_eval self); naive_solver.
Qed.

(** The device name of host 3 on worker "/job:trainer". *)
Example GetDeviceName_host_3 :
  GetDeviceName
    {| is_inference := false; do_eval := false;
       worker_name := "/job:trainer" |} 3
  = Returns (Some "/job:trainer/replica:0/task:3/device:CPU:0").
Proof. vm_compute. reflexivity. Qed.

(** X17.  For a table in training, distinct hosts get distinct device
    names. *)
Theorem GetDeviceName_distinct_hosts (self : Placement) (h1 h2 : Z) :
  is_inference self = false →
  do_eval self = false →
  h1 ≠ h2 →
  GetDeviceName self h1 ≠ GetDeviceName self h2.
Proof.
  intros Hi He Hne Heq. unfold GetDeviceName in Heq.
  rewrite Hi, He in Heq. injection Heq as Heq.
  apply (inj (String.app _)) in Heq.
  apply (inj (String.app _)) in Heq.
  apply string_app_inj_r in Heq.
  by apply (inj pretty) in Heq.
Qed.

(** ** The scenarios, on the symbolic backend *)

#[local] Existing Instance Sym.backend.
#[local] Existing Instance Sym.oracle.

Lemma disabled_manager_passes_through_witness :
  enabled (manager (exec (OpEnqueue Sym.batch) Sym.disabled_env)) = false
  ∧ Reachable (exec (OpEnqueue Sym.batch) Sym.disabled_env)
  ∧ Dequeue (exec (OpEnqueue Sym.batch) Sym.disabled_env)
    = (Ok ∅, exec (OpEnqueue Sym.batch) Sym.disabled_env)
  ∧ ApplyGradients Sym.gradients
      (exec (OpEnqueue Sym.batch) Sym.disabled_env)
    = (Ok ∅, exec (OpEnqueue Sym.batch) Sym.disabled_env).
Proof.
  assert (Hr : Reachable (exec (OpEnqueue Sym.batch) Sym.disabled_env)).
  { apply Reachable_step; [apply Reachable_start | reflexivity]. }
  pose proof (disabled_manager_passes_through
                (exec (OpEnqueue Sym.batch) Sym.disabled_env)
                Sym.batch Sym.gradients eq_refl)
    as (_ & _ & Hd & Ha).
  split; [reflexivity|]. split; [exact Hr|].
  split; [exact (Hd Hr) | exact Ha].
Defined.

Lemma Lookup_returns_cached_intersection_witness :
  enabled (manager Sym.enabled_env) = true
  ∧ Sym.ids_ab ≠ ∅
  ∧ Lookup (Some Sym.ids_ab) Sym.enabled_env
    = (Ok {["a" := Sym.Vec [1; 2]%Q]}, Sym.enabled_env).
Proof.
  assert (Hne : Sym.ids_ab ≠ ∅) by apply insert_non_empty.
  split; [reflexivity|]. split; [exact Hne|].
  etrans.
  - exact (proj1 (Lookup_returns_cached_intersection
                    Sym.enabled_env Sym.ids_ab eq_refl Hne)).
  - vm_compute. reflexivity.
Defined.

Lemma ApplyGradients_scales_and_reports_witness :
  enabled (manager Sym.enabled_env) = true
  ∧ _tpu_embedding (manager Sym.enabled_env) = Some 1
  ∧ _gradient_multiplier_schedule (manager Sym.enabled_env) = Some 0
  ∧ ApplyGradients Sym.gradients Sym.enabled_env
    = (Ok (metrics
             {["a" := Sym.Vec [1; 2]%Q]}
             {["a" := Sym.Mul (Sym.Vec [3; 4]%Q) (Sym.ScheduleValue 0 0)]}
             (Sym.ScheduleValue 0 0)),
       {| manager := Sym.enabled_manager;
          calls :=
            [Value 0;
             apply_gradients 1
               {["a" := Sym.Mul (Sym.Vec [3; 4]%Q)
                                (Sym.ScheduleValue 0 0)]}] |}).
Proof.
  split; [reflexivity|]. split; [reflexivity|]. split; [reflexivity|].
  etrans.
  - exact (proj1 (ApplyGradients_scales_and_reports Sym.enabled_env
                    Sym.gradients 1 0 eq_refl eq_refl eq_refl)).
  - vm_compute. reflexivity.
Defined.

Lemma coordinator_is_set_once_witness :
  _tpu_embedding (manager Sym.disabled_env) = None
  ∧ _tpu_embedding (manager Sym.enabled_env) = Some 1
  ∧ set_tpu_embedding 5 Sym.disabled_env
    = (Ok tt, {| manager := with_tpu_embedding (Some 5) __init__;
                 calls := [] |})
  ∧ set_tpu_embedding 6
      (run [OpEnqueue Sym.batch; OpSetTpuEmbedding 7]
           (set_tpu_embedding 5 Sym.disabled_env).2)
    = (Raise (ValueError AlreadySet),
       run [OpEnqueue Sym.batch; OpSetTpuEmbedding 7]
           (set_tpu_embedding 5 Sym.disabled_env).2)
  ∧ set_tpu_embedding 5 (run [OpDequeue] Sym.enabled_env)
    = (Raise (ValueError AlreadySet), run [OpDequeue] Sym.enabled_env).
Proof.
  split; [reflexivity|]. split; [reflexivity|].
  destruct (coordinator_is_set_once Sym.disabled_env 5) as [Hfirst _].
  destruct (Hfirst eq_refl) as [Hstored Hlater].
  destruct (coordinator_is_set_once Sym.enabled_env 5) as [_ Hagain].
  split; [exact Hstored|]. split.
  - exact (proj1 (Hlater [OpEnqueue Sym.batch; OpSetTpuEmbedding 7] 6)).
  - exact (proj1 (Hagain 1 [OpDequeue] eq_refl)).
Defined.

Lemma Enqueue_resets_cache_witness :
  forallb (λ op, negb (is_dequeue op))
    [OpLookup None; OpApplyGradients Sym.gradients; OpSetEnabled false]
  = true
  ∧ _activations (manager (Enqueue Sym.batch Sym.enabled_env).2) = ∅
  ∧ (Lookup (Some Sym.ids_ab)
       (run [OpLookup None; OpApplyGradients Sym.gradients;
             OpSetEnabled false]
            (Enqueue Sym.batch Sym.enabled_env).2)).1 = Ok ∅.
Proof.
  split; [reflexivity|].
  exact (Enqueue_resets_cache Sym.enabled_env Sym.batch
           [OpLookup None; OpApplyGradients Sym.gradients;
            OpSetEnabled false]
           (Some Sym.ids_ab) eq_refl).
Defined.

Lemma Dequeue_caches_activations_witness :
  enabled (manager Sym.enabled_env) = true
  ∧ _tpu_embedding (manager Sym.enabled_env) = Some 1
  ∧ enabled (manager Sym.disabled_env) = false
  ∧ Dequeue Sym.enabled_env
    = (Ok {["a" := Sym.Vec [1; 2]%Q]},
       {| manager := Sym.enabled_manager;
          calls := [dequeue 1; watch {["a" := Sym.Vec [1; 2]%Q]}] |})
  ∧ Dequeue Sym.disabled_env = (Ok ∅, Sym.disabled_env).
Proof.
  split; [reflexivity|]. split; [reflexivity|]. split; [reflexivity|].
  split.
  - destruct (Dequeue_caches_activations Sym.enabled_env) as [Hon _].
    exact (proj1 (Hon 1 eq_refl eq_refl)).
  - destruct (Dequeue_caches_activations Sym.disabled_env) as [_ Hoff].
    exact (Hoff eq_refl).
Defined.

Lemma duplicate_layer_declares_f_twice :
  declared_twice Sym.duplicate_layer "f".
Proof.
  exists 0, 1, (Sym.table ["f"] 0), (Sym.table ["f"; "h"] 0).
  repeat split; try done; simpl; set_solver.
Qed.

(** C7, as stated, fails: with "f" declared by two tables, the error of a
    first construction fires after the coordinator has been built. *)
Lemma duplicate_key_raises_before_building_counterexample :
  declared_twice Sym.duplicate_layer "f"
  ∧ ¬ raises_before_building Sym.duplicate_layer Sym.disabled_env.
Proof.
  split; [exact duplicate_layer_declares_f_twice|].
  intros [_ Hbuilt]. vm_compute in Hbuilt. discriminate Hbuilt.
Qed.

Lemma duplicate_key_raises_after_building_witness :
  declared_twice Sym.duplicate_layer "f"
  ∧ IsTpuTraining (params Sym.duplicate_layer) = true
  ∧ enabled (manager Sym.disabled_env) = false
  ∧ _tpu_embedding (manager Sym.disabled_env) = None
  ∧ (_CreateLayerVariables Sym.duplicate_layer Sym.disabled_env).1
    = Raise (ValueError
               (KeyUsedByMultipleTables (<["f" := 2]> (<["h" := 1]> ∅))))
  ∧ coordinators_built
      (_CreateLayerVariables Sym.duplicate_layer Sym.disabled_env).2 = 1.
Proof.
  split; [exact duplicate_layer_declares_f_twice|].
  split; [reflexivity|]. split; [reflexivity|]. split; [reflexivity|].
  destruct (duplicate_key_raises_after_building Sym.duplicate_layer
              Sym.disabled_env "f" duplicate_layer_declares_f_twice
              eq_refl eq_refl eq_refl) as (Hraise & Hbuilt & _).
  split.
  - rewrite Hraise. vm_compute. reflexivity.
  - exact Hbuilt.
Defined.

Lemma EmbLookup_rejects_undeclared_keys_witness :
  "b" ∈ dom Sym.ids_ab
  ∧ (∀ table, table ∈ tables Sym.single_layer → "b" ∉ input_keys table)
  ∧ EmbLookup Sym.single_layer Sym.ids_ab Sym.enabled_env
    = (Raise (ValueError (InvalidInputKeys {["b"]} {["a"]})),
       Sym.enabled_env).
Proof.
  assert (Hb : "b" ∈ dom Sym.ids_ab).
  { apply elem_of_dom. by exists [9%Z]. }
  assert (Hundeclared :
    ∀ table, table ∈ tables Sym.single_layer → "b" ∉ input_keys table).
  { intros table Ht. apply list_elem_of_singleton in Ht as ->.
    simpl. intros Hin. apply list_elem_of_singleton in Hin.
    discriminate Hin. }
  split; [exact Hb|]. split; [exact Hundeclared|].
  etrans.
  - exact (proj1 (EmbLookup_rejects_undeclared_keys Sym.single_layer
                    Sym.ids_ab Sym.enabled_env "b" Hb Hundeclared)).
  - vm_compute. reflexivity.
Defined.

Lemma ids_ab_requests_b : "b" ∈ dom Sym.ids_ab.
Proof. apply elem_of_dom. by exists [9%Z]. Qed.

Lemma single_layer_lacks_b :
  ∀ table, table ∈ tables Sym.single_layer → "b" ∉ input_keys table.
Proof.
  intros table Ht. apply list_elem_of_singleton in Ht as ->.
  simpl. intros Hin. apply list_elem_of_singleton in Hin.
  discriminate Hin.
Qed.

(** C8, as stated, fails: the request for "b", which no table of the layer
    declares, is not detected at layer-construction time.  Constructing
    the layer's variables returns normally; the request is rejected only
    when [EmbLookup] receives it. *)
Lemma undeclared_keys_detected_at_construction_counterexample :
  "b" ∈ dom Sym.ids_ab
  ∧ (∀ table, table ∈ tables Sym.single_layer → "b" ∉ input_keys table)
  ∧ ¬ raised_at_construction Sym.single_layer Sym.disabled_env
  ∧ (_CreateLayerVariables Sym.single_layer Sym.disabled_env).1
    = Ok (with_tpu_embedding_manager true Sym.single_layer).
Proof.
  split; [exact ids_ab_requests_b|]. split; [exact single_layer_lacks_b|].
  split.
  - intros [e He]. vm_compute in He. discriminate He.
  - vm_compute. reflexivity.
Qed.

Lemma second_layer_leaves_manager_witness :
  enabled (manager (_CreateLayerVariables Sym.single_layer
                      Sym.disabled_env).2) = true
  ∧ _CreateLayerVariables Sym.duplicate_layer
      (_CreateLayerVariables Sym.single_layer Sym.disabled_env).2
    = (Ok Sym.duplicate_layer,
       (_CreateLayerVariables Sym.single_layer Sym.disabled_env).2).
Proof.
  split; [reflexivity|].
  exact (proj1 (proj2 (second_layer_leaves_manager Sym.duplicate_layer
           (_CreateLayerVariables Sym.single_layer Sym.disabled_env).2))
           eq_refl).
Defined.

(** ** Scenarios of the further properties *)

Lemma enabled_without_coordinator_raises_witness :
  enabled (manager Scenario.enabled_only) = true
  ∧ _tpu_embedding (manager Scenario.enabled_only) = None
  ∧ Enqueue Sym.batch Scenario.enabled_only
    = (Raise AttributeError,
       {| manager := with_enabled true __init__; calls := [] |})
  ∧ Dequeue Scenario.enabled_only
    = (Raise AttributeError, Scenario.enabled_only).
Proof.
  split; [reflexivity|]. split; [reflexivity|].
  exact (enabled_without_coordinator_raises Scenario.enabled_only
           Sym.batch eq_refl eq_refl).
Defined.

Lemma ApplyGradients_missing_parts_witness :
  enabled (manager Scenario.enabled_only) = true
  ∧ enabled (manager Scenario.without_coordinator) = true
  ∧ ApplyGradients Sym.gradients Scenario.enabled_only
    = (Raise AttributeError, Scenario.enabled_only)
  ∧ ApplyGradients Sym.gradients Scenario.without_coordinator
    = (Raise AttributeError,
       {| manager := manager Scenario.without_coordinator;
          calls := [Value 0] |}).
Proof.
  split; [reflexivity|]. split; [reflexivity|]. split.
  - exact (ApplyGradients_missing_parts Scenario.enabled_only
             Sym.gradients eq_refl).
  - exact (ApplyGradients_missing_parts Scenario.without_coordinator
             Sym.gradients eq_refl).
Defined.

Lemma training_step_witness :
  enabled (manager Sym.enabled_env) = true
  ∧ _tpu_embedding (manager Sym.enabled_env) = Some 1
  ∧ Sym.ids_ab ≠ ∅
  ∧ calls (Dequeue (Enqueue Sym.batch Sym.enabled_env).2).2
    = [enqueue 1 Sym.batch; dequeue 1;
       watch {["a" := Sym.Vec [1; 2]%Q]}]
  ∧ Lookup (Some Sym.ids_ab)
      (Dequeue (Enqueue Sym.batch Sym.enabled_env).2).2
    = (Ok {["a" := Sym.Vec [1; 2]%Q]},
       (Dequeue (Enqueue Sym.batch Sym.enabled_env).2).2).
Proof.
  assert (Hne : Sym.ids_ab ≠ ∅) by apply insert_non_empty.
  split; [reflexivity|]. split; [reflexivity|]. split; [exact Hne|].
  destruct (training_step Sym.enabled_env 1 Sym.batch Sym.ids_ab
              eq_refl eq_refl Hne) as (Hcalls & _ & Hlookup).
  split; [exact Hcalls|].
  etrans; [exact Hlookup|]. vm_compute. reflexivity.
Defined.

Lemma Dequeue_replaces_cache_witness :
  enabled (manager Sym.enabled_env) = true
  ∧ _tpu_embedding (manager Sym.enabled_env) = Some 1
  ∧ (Dequeue (O := Scenario.alternating_oracle) Sym.enabled_env).1
    = Ok {["a" := Sym.Vec [1; 2]%Q]}
  ∧ (Dequeue (O := Scenario.alternating_oracle)
       (Dequeue (O := Scenario.alternating_oracle) Sym.enabled_env).2).1
    = Ok {["b" := Sym.Vec [5]%Q]}
  ∧ (Lookup None
       (Dequeue (O := Scenario.alternating_oracle)
          (Dequeue (O := Scenario.alternating_oracle)
             Sym.enabled_env).2).2).1
    = Ok {["b" := Sym.Vec [5]%Q]}.
Proof.
  split; [reflexivity|]. split; [reflexivity|]. split; [reflexivity|].
  destruct (Dequeue_replaces_cache (O := Scenario.alternating_oracle)
              Sym.enabled_env 1 eq_refl eq_refl) as (Hsecond & _ & Hlookup).
  split; [exact Hsecond|].
  exact (f_equal fst Hlookup).
Defined.

Lemma enabled_never_reverted_witness :
  forallb in_file
    [OpEnqueue Sym.batch; OpDequeue;
     OpCreateLayerVariables Sym.duplicate_layer;
     OpApplyGradients Sym.gradients] = true
  ∧ enabled (manager Sym.enabled_env) = true
  ∧ enabled (manager (run [OpEnqueue Sym.batch; OpDequeue;
                           OpCreateLayerVariables Sym.duplicate_layer;
                           OpApplyGradients Sym.gradients]
                          Sym.enabled_env)) = true.
Proof.
  split; [reflexivity|]. split; [reflexivity|].
  exact (enabled_never_reverted
           [OpEnqueue Sym.batch; OpDequeue;
            OpCreateLayerVariables Sym.duplicate_layer;
            OpApplyGradients Sym.gradients]
           Sym.enabled_env eq_refl eq_refl).
Defined.

Lemma Reached_singleton_discipline_witness :
  Reached (_LearningRateFn "t" 0 1 Sym.disabled_env).2
  ∧ (forallb is_Value (calls (_LearningRateFn "t" 0 1 Sym.disabled_env).2)
     = true
     ∧ with_summary_tensors []
         (manager (_LearningRateFn "t" 0 1 Sym.disabled_env).2)
       = __init__)
  ∧ Reached (exec (OpCreateLayerVariables Sym.single_layer)
               (_LearningRateFn "t" 0 1 Sym.disabled_env).2)
  ∧ coordinators_built
      (exec (OpCreateLayerVariables Sym.single_layer)
            (_LearningRateFn "t" 0 1 Sym.disabled_env).2) = 1.
Proof.
  assert (Hr1 : Reached (_LearningRateFn "t" 0 1 Sym.disabled_env).2).
  { apply Reached_learning_rate, Reached_start. }
  assert (Hr2 : Reached (exec (OpCreateLayerVariables Sym.single_layer)
                           (_LearningRateFn "t" 0 1 Sym.disabled_env).2)).
  { apply Reached_op; [exact Hr1 | reflexivity]. }
  split; [exact Hr1|].
  split; [exact (Reached_singleton_discipline _ Hr1)|].
  split; [exact Hr2|].
  exact (Reached_singleton_discipline _ Hr2).
Defined.

Lemma first_construction_checks_keys_witness :
  IsTpuTraining (params Scenario.repeated_key_layer) = true
  ∧ enabled (manager Sym.disabled_env) = false
  ∧ _tpu_embedding (manager Sym.disabled_env) = None
  ∧ (_CreateLayerVariables Scenario.repeated_key_layer Sym.disabled_env).1
    = Raise (ValueError (KeyUsedByMultipleTables {["f" := 2]})).
Proof.
  split; [reflexivity|]. split; [reflexivity|]. split; [reflexivity|].
  etrans.
  - exact (proj1 (first_construction_checks_keys
                    Scenario.repeated_key_layer Sym.disabled_env
                    eq_refl eq_refl eq_refl)).
  - vm_compute. reflexivity.
Defined.

Lemma mixed_layer_keys_NoDup : NoDup (declared_keys Scenario.mixed_layer).
Proof. apply (bool_decide_unpack _). vm_compute. exact I. Qed.

Lemma construction_publishes_keys_witness :
  IsTpuTraining (params Scenario.mixed_layer) = true
  ∧ enabled (manager Sym.disabled_env) = false
  ∧ _tpu_embedding (manager Sym.disabled_env) = None
  ∧ NoDup (declared_keys Scenario.mixed_layer)
  ∧ _feature_names
      (manager (_CreateLayerVariables Scenario.mixed_layer
                  Sym.disabled_env).2) = {["s"; "a"]}
  ∧ _sequence_features
      (manager (_CreateLayerVariables Scenario.mixed_layer
                  Sym.disabled_env).2) = {["s"]}.
Proof.
  split; [reflexivity|]. split; [reflexivity|]. split; [reflexivity|].
  split; [exact mixed_layer_keys_NoDup|].
  destruct (construction_publishes_keys Scenario.mixed_layer
              Sym.disabled_env eq_refl eq_refl eq_refl
              mixed_layer_keys_NoDup) as (Hnames & Hseq & _).
  split.
  - etrans; [exact Hnames|]. vm_compute. reflexivity.
  - etrans; [exact Hseq|]. vm_compute. reflexivity.
Defined.

Lemma batch_keys_valid : dom Sym.batch ⊆ valid_keys Sym.single_layer.
Proof. apply (bool_decide_unpack _). vm_compute. exact I. Qed.

Lemma late_layer_cannot_lookup_witness :
  enabled (manager (_CreateLayerVariables Sym.duplicate_layer
                      Sym.disabled_env).2) = true
  ∧ tpu_embedding_manager Sym.single_layer = false
  ∧ IsTpuTraining (params Sym.single_layer) = true
  ∧ dom Sym.batch ⊆ valid_keys Sym.single_layer
  ∧ _CreateLayerVariables Sym.single_layer
      (_CreateLayerVariables Sym.duplicate_layer Sym.disabled_env).2
    = (Ok Sym.single_layer,
       (_CreateLayerVariables Sym.duplicate_layer Sym.disabled_env).2)
  ∧ EmbLookup Sym.single_layer Sym.batch Sym.enabled_env
    = (Raise AttributeError, Sym.enabled_env).
Proof.
  split; [reflexivity|]. split; [reflexivity|]. split; [reflexivity|].
  split; [exact batch_keys_valid|].
  exact (late_layer_cannot_lookup Sym.single_layer
           (_CreateLayerVariables Sym.duplicate_layer Sym.disabled_env).2
           Sym.batch Sym.enabled_env eq_refl eq_refl eq_refl
           batch_keys_valid).
Defined.

Lemma single_layer_keys_NoDup : NoDup (declared_keys Sym.single_layer).
Proof. apply (bool_decide_unpack _). vm_compute. exact I. Qed.

Lemma construct_then_lookup_witness :
  IsTpuTraining (params Sym.single_layer) = true
  ∧ enabled (manager Sym.disabled_env) = false
  ∧ _tpu_embedding (manager Sym.disabled_env) = None
  ∧ NoDup (declared_keys Sym.single_layer)
  ∧ Sym.batch ≠ ∅
  ∧ dom Sym.batch ⊆ valid_keys Sym.single_layer
  ∧ (EmbLookup (with_tpu_embedding_manager true Sym.single_layer) Sym.batch
       (Dequeue (Enqueue Sym.batch
                   (_CreateLayerVariables Sym.single_layer
                      Sym.disabled_env).2).2).2).1
    = Ok {["a" := Sym.Vec [1; 2]%Q]}.
Proof.
  assert (Hne : Sym.batch ≠ ∅) by apply insert_non_empty.
  split; [reflexivity|]. split; [reflexivity|]. split; [reflexivity|].
  split; [exact single_layer_keys_NoDup|]. split; [exact Hne|].
  split; [exact batch_keys_valid|].
  destruct (construct_then_lookup Sym.single_layer Sym.disabled_env
              Sym.batch Sym.batch eq_refl eq_refl eq_refl
              single_layer_keys_NoDup Hne batch_keys_valid)
    as (_ & Hlookup & _).
  etrans; [exact Hlookup|]. vm_compute. reflexivity.
Defined.

Lemma ids_sa_keys_valid :
  dom Scenario.ids_sa
  ⊆ valid_keys (Scenario.on_cpu Scenario.mixed_layer).
Proof. apply (bool_decide_unpack _). vm_compute. exact I. Qed.

Lemma EmbLookup_on_cpu_witness :
  IsTpuTraining (params (Scenario.on_cpu Scenario.mixed_layer)) = false
  ∧ dom Scenario.ids_sa
    ⊆ valid_keys (Scenario.on_cpu Scenario.mixed_layer)
  ∧ ∃ r,
      EmbLookup (Scenario.on_cpu Scenario.mixed_layer) Scenario.ids_sa
        Sym.enabled_env = (Ok r, Sym.enabled_env)
      ∧ dom r = dom Scenario.ids_sa
      ∧ ∀ k ids, Scenario.ids_sa !! k = Some ids →
          ∃ table,
            table ∈ tables (Scenario.on_cpu Scenario.mixed_layer)
            ∧ k ∈ input_keys table
            ∧ r !! k = Some (cpu_activation table "mod" ids).
Proof.
  split; [reflexivity|]. split; [exact ids_sa_keys_valid|].
  exact (EmbLookup_on_cpu (Scenario.on_cpu Scenario.mixed_layer)
           Sym.enabled_env Scenario.ids_sa eq_refl ids_sa_keys_valid).
Defined.

Lemma GetDeviceName_distinct_hosts_witness :
  is_inference Scenario.training_placement = false
  ∧ do_eval Scenario.training_placement = false
  ∧ (0 ≠ 1)%Z
  ∧ GetDeviceName Scenario.training_placement 0
    ≠ GetDeviceName Scenario.training_placement 1.
Proof.
  assert (Hne : (0 ≠ 1)%Z) by discriminate.
  split; [reflexivity|]. split; [reflexivity|]. split; [exact Hne|].
  exact (GetDeviceName_distinct_hosts Scenario.training_placement 0 1
           eq_refl eq_refl Hne).
Defined.

Lemma construction_with_stored_coordinator_witness :
  IsTpuTraining (params Sym.single_layer) = true
  ∧ enabled (manager Scenario.preset_coordinator) = false
  ∧ _tpu_embedding (manager Scenario.preset_coordinator) = Some 9
  ∧ _CreateLayerVariables Sym.single_layer Scenario.preset_coordinator
    = (Raise (ValueError AlreadySet),
       {| manager := with_enabled true
                       (manager Scenario.preset_coordinator);
          calls := [init_call Sym.single_layer] |}).
Proof.
  split; [reflexivity|]. split; [reflexivity|]. split; [reflexivity|].
  exact (construction_with_stored_coordinator Sym.single_layer
           Scenario.preset_coordinator 9 eq_refl eq_refl eq_refl).
Defined.
